(** * gps-to-obj: extruding a GPS track into a quad mesh

    A shallow embedding of [gps_track.py], [gps_to_obj.py], [write_obj_file.py]
    and the per-file loop body of [main.py].

    Python [float] values are read as real numbers ([R]); Python [int] values
    (vertex counts, offsets, face indices) are unbounded integers ([Z]).
    Exceptions are values of [exn], threaded through the [result] monad. *)

From Stdlib Require Import String.
From Stdlib Require Import ZArith List Lia Reals Lra Bool.
Import ListNotations.

Set Implicit Arguments.
Local Open Scope R_scope.

(* ------------------------------------------------------------------ *)
(** ** Exceptions *)

Inductive exn : Type :=
| IndexError   (* list index out of range *)
| ValueError   (* min() of an empty sequence *)
| TypeError.   (* unexpected keyword argument *)

Inductive result (A : Type) : Type :=
| Ok (a : A)
| Raise (e : exn).

Arguments Ok {A} a.
Arguments Raise {A} e.

Definition bind {A B : Type} (m : result A) (k : A -> result B) : result B :=
  match m with
  | Ok a => k a
  | Raise e => Raise e
  end.

Notation "x <- m ;; k" := (bind m (fun x => k))
  (at level 61, m at next level, right associativity).

Fixpoint mapM {A B : Type} (f : A -> result B) (l : list A) : result (list B) :=
  match l with
  | [] => Ok []
  | a :: l' => b <- f a ;; bs <- mapM f l' ;; Ok (b :: bs)
  end.

(** [foldM] is a [for] loop whose body may raise. *)
Fixpoint foldM {A S : Type} (body : S -> A -> result S) (l : list A) (s : S)
  : result S :=
  match l with
  | [] => Ok s
  | a :: l' => s' <- body s a ;; foldM body l' s'
  end.

(* ------------------------------------------------------------------ *)
(** ** Python built-ins used by the code *)

Module Py.

Local Open Scope Z_scope.

(** [range(start, stop, step)] for a positive [step]. *)
Definition range_len (start stop step : Z) : nat :=
  Z.to_nat ((stop - start + step - 1) / step).

Definition range (start stop step : Z) : list Z :=
  map (fun k => start + step * Z.of_nat k) (seq 0 (range_len start stop step)).

(** [itertools.pairwise]. *)
Definition pairwise {A : Type} (l : list A) : list (A * A) :=
  combine l (tl l).

(** [len]. *)
Definition len {A : Type} (l : list A) : Z := Z.of_nat (length l).

(** [l[0]]. *)
Definition first {A : Type} (l : list A) : result A :=
  match l with
  | [] => Raise IndexError
  | a :: _ => Ok a
  end.

(** [min] over a sequence of floats. *)
Definition min (l : list R) : result R :=
  match l with
  | [] => Raise ValueError
  | x :: xs => Ok (fold_left Rmin xs x)
  end.

End Py.

(* ------------------------------------------------------------------ *)
(** ** Mesh indexer ([GPSTrackToOBJ._get_polygons_for_vertices]) *)

Definition side_face (i j : Z) : list Z :=
  [ i + (j + 1) mod 4; i + j; i + 4 + j; i + 4 + (j + 1) mod 4 ]%Z.

Definition _get_polygons_for_vertices (vertex_count segment_offset : Z)
  : list (list Z) :=
  map (fun vertex_list => map (fun i => (i + segment_offset)%Z) vertex_list)
    ([[1; 2; 3; 4]]
     ++ flat_map (fun i => map (fun j => side_face i j) (Py.range 1 5 1))
                 (Py.range 0 (vertex_count - 8) 4)
     ++ [[vertex_count - 3; vertex_count - 2; vertex_count - 1; vertex_count]])%Z.

(* ------------------------------------------------------------------ *)
(** ** Data model ([gps_track.py], [write_obj_file.py], [GPSTrackConfig]) *)

Record GPSPoint : Type := {
  latitude : R;   (* in degrees *)
  longitude : R;  (* in degrees *)
  elevation : R   (* in meters *)
}.

Record GPSTrackSegment : Type := { points : list GPSPoint }.

Record GPSTrack : Type := { segments : list GPSTrackSegment }.

Definition vertex : Type := (R * R * R)%type.

Definition vz (v : vertex) : R := snd v.

Record ObjFile : Type := {
  _vertices : list vertex;
  _polygons : list (list Z)
}.

Definition add_vertices (self : ObjFile) (vertices : list vertex) : ObjFile :=
  {| _vertices := _vertices self ++ vertices; _polygons := _polygons self |}.

Definition add_polygons (self : ObjFile) (polygons : list (list Z)) : ObjFile :=
  {| _vertices := _vertices self; _polygons := _polygons self ++ polygons |}.

Record GPSTrackConfig : Type := {
  elevation_multiplier : R;
  smoothing_interval : R;
  base_height : R;
  path_width : R
}.

Definition default_config : GPSTrackConfig :=
  {| elevation_multiplier := 1; smoothing_interval := 10;
   base_height := 1; path_width := 5 |}.

(** The dataclass constructor applied to the keyword arguments decoded by
  [json.loads]: the decoded JSON object is a list of
  key/value pairs; a later pair overrides an earlier one, a key that is not a
  field of the dataclass raises [TypeError], and no value is range-checked. *)
Definition set_field (c : GPSTrackConfig) (kv : string * R)
  : result GPSTrackConfig :=
  let '(k, v) := kv in
  if String.eqb k "elevation_multiplier" then
  Ok {| elevation_multiplier := v; smoothing_interval := smoothing_interval c;
        base_height := base_height c; path_width := path_width c |}
  else if String.eqb k "smoothing_interval" then
  Ok {| elevation_multiplier := elevation_multiplier c; smoothing_interval := v;
        base_height := base_height c; path_width := path_width c |}
  else if String.eqb k "base_height" then
  Ok {| elevation_multiplier := elevation_multiplier c;
        smoothing_interval := smoothing_interval c;
        base_height := v; path_width := path_width c |}
  else if String.eqb k "path_width" then
  Ok {| elevation_multiplier := elevation_multiplier c;
        smoothing_interval := smoothing_interval c;
        base_height := base_height c; path_width := v |}
  else Raise TypeError.

Definition parse_gps_track_config (config : list (string * R))
  : result GPSTrackConfig :=
  foldM set_field config default_config.

(** [GPSTrackToOBJ.__init__]: [self.config = config or GPSTrackConfig()]. *)
Definition GPSTrackToOBJ (config : option GPSTrackConfig) : GPSTrackConfig :=
  match config with
  | Some c => c
  | None => default_config
  end.

(** [GPSTrackSegment.__len__] and [GPSTrack.__len__]. *)
Definition GPSTrackSegment_len (self : GPSTrackSegment) : Z :=
  Py.len (points self).

Definition GPSTrack_len (self : GPSTrack) : Z :=
  fold_left Z.add (map GPSTrackSegment_len (segments self)) 0%Z.

(** [GPSTrackSegment.min_elevation] and [GPSTrack.min_elevation]. *)
Definition GPSTrackSegment_min_elevation (self : GPSTrackSegment) : result R :=
  Py.min (map elevation (points self)).

Definition GPSTrack_min_elevation (self : GPSTrack) : result R :=
  mins <- mapM GPSTrackSegment_min_elevation (segments self) ;;
  Py.min mins.

(** [math.radians]. *)
Definition radians (deg : R) : R := deg * PI / 180.

Definition move_point (point : R * R) (angle distance : R) : R * R :=
  let '(x, y) := point in
  let dx := sin angle * distance in
  let dy := cos angle * distance in
  (x + dx, y + dy).

(* ------------------------------------------------------------------ *)
(** ** The conversion pipeline, over an arbitrary geodesic adapter *)

Section Pipeline.

(** [geod.inv(lon1, lat1, lon2, lat2)] of pyproj: forward azimuth in
    degrees, back azimuth, distance in meters. *)
Variable geod_inv : R -> R -> R -> R -> R * R * R.

Definition angle_and_distance_to (self other : GPSPoint) : R * R :=
  let '(bearing, _, distance) :=
    geod_inv (longitude self) (latitude self)
             (longitude other) (latitude other) in
  (radians (-90 - bearing), distance).

(** One iteration of the loop of [filter_by_smoothing_interval]:
    [points[-1]] is the last kept point. *)
Definition smoothing_step (smoothing_interval : R) (first_point : GPSPoint)
           (kept : list GPSPoint) (p : GPSPoint) : list GPSPoint :=
  let '(_, distance) := angle_and_distance_to (last kept first_point) p in
  if Rgt_dec distance smoothing_interval then kept ++ [p] else kept.

Definition filter_by_smoothing_interval (self : GPSTrackSegment)
           (smoothing_interval : R) : result GPSTrackSegment :=
  p0 <- Py.first (points self) ;;
  Ok {| points := fold_left (smoothing_step smoothing_interval p0)
                            (tl (points self)) [p0] |}.

Variable config : GPSTrackConfig.

Definition _get_vertices_for_point (location : R * R) (angle elevation : R)
  : list vertex :=
  let '(x, y) := location in
  let half_width := path_width config / 2 in
  let dx := cos angle * half_width in
  let dy := sin angle * half_width * -1 in
  [ (x + dx, y + dy, 0);
    (x + dx, y + dy, elevation);
    (x - dx, y - dy, elevation);
    (x - dx, y - dy, 0) ].

(** The elevation computed in the loop body of [_get_vertices_for_segment]. *)
Definition computed_elevation (min_elevation : R) (from_point : GPSPoint) : R :=
  base_height config
  + (elevation from_point - min_elevation) * elevation_multiplier config.

Definition vertices_for_pair (global_origin : GPSPoint) (min_elevation : R)
           (pr : GPSPoint * GPSPoint) : list vertex :=
  let '(from_point, to_point) := pr in
  let '(angle, _) := angle_and_distance_to from_point to_point in
  let elevation := computed_elevation min_elevation from_point in
  let '(angle_to_origin, distance_to_origin) :=
    angle_and_distance_to global_origin from_point in
  let location := move_point (0, 0) angle_to_origin distance_to_origin in
  _get_vertices_for_point location angle elevation.

Definition _get_vertices_for_segment (segment : GPSTrackSegment)
           (global_origin : GPSPoint) (min_elevation : R) : list vertex :=
  flat_map (vertices_for_pair global_origin min_elevation)
           (Py.pairwise (points segment)).

(** The body of the [for segment in gps_track.segments] loop of [run]; the
    state is the mesh buffer and [segment_offset]. *)
Definition run_segment (global_origin : GPSPoint) (min_elevation : R)
           (st : ObjFile * Z) (segment : GPSTrackSegment)
  : result (ObjFile * Z) :=
  let '(obj_file, segment_offset) := st in
  filtered_segment <-
    filter_by_smoothing_interval segment (smoothing_interval config) ;;
  let vertices_for_segment :=
    _get_vertices_for_segment filtered_segment global_origin min_elevation in
  let obj_file := add_vertices obj_file vertices_for_segment in
  let polygons_for_segment :=
    _get_polygons_for_vertices (Py.len vertices_for_segment) segment_offset in
  let obj_file := add_polygons obj_file polygons_for_segment in
  Ok (obj_file, (segment_offset + Py.len vertices_for_segment)%Z).

(** [GPSTrackToOBJ.run]: [Ok obj] means that [obj] was handed to
    [write_to_file], [Raise e] that [e] escaped before any file was written. *)
Definition run (gps_track : GPSTrack) : result ObjFile :=
  first_segment <- Py.first (segments gps_track) ;;
  global_origin <- Py.first (points first_segment) ;;
  min_elevation <- GPSTrack_min_elevation gps_track ;;
  st <- foldM (run_segment global_origin min_elevation)
              (segments gps_track)
              ({| _vertices := []; _polygons := [] |}, 0%Z) ;;
  Ok (fst st).

End Pipeline.

(** The body of the per-file loop of [main]. *)
Inductive file_outcome : Type :=
| Skipped
| Written (obj : ObjFile)
| Failed (e : exn).

Definition main_file (geod_inv : R -> R -> R -> R -> R * R * R)
           (config : option GPSTrackConfig) (gps_track : GPSTrack)
  : file_outcome :=
  let converter := GPSTrackToOBJ config in
  if (GPSTrack_len gps_track =? 0)%Z then Skipped
  else match run geod_inv converter gps_track with
       | Ok obj => Written obj
       | Raise e => Failed e
       end.

(* ------------------------------------------------------------------ *)
(** ** Vocabulary of the statements *)

(** The edges of a face: consecutive indices, cyclically. *)
Definition face_edges (face : list Z) : list (Z * Z) :=
  combine face (tl face ++ firstn 1 face).

Definition same_edge (e1 e2 : Z * Z) : bool :=
  ((fst e1 =? fst e2) && (snd e1 =? snd e2)
   || (fst e1 =? snd e2) && (snd e1 =? fst e2))%Z.

Definition face_has_edge (u v : Z) (face : list Z) : bool :=
  existsb (same_edge (u, v)) (face_edges face).

(** Number of faces that have the edge between vertices [u] and [v]. *)
Definition edge_count (faces : list (list Z)) (u v : Z) : nat :=
  length (filter (face_has_edge u v) faces).

(** The vertex indices owned by a segment with [vertex_count] vertices that
    starts at [segment_offset]: [segment_offset+1 .. segment_offset+vertex_count]. *)
Definition in_segment_range (segment_offset vertex_count k : Z) : Prop :=
  (segment_offset + 1 <= k <= segment_offset + vertex_count)%Z.

(** The points of a segment that receive a cross-section: the first
    components of [pairwise]. *)
Definition from_points (segment : GPSTrackSegment) : list GPSPoint :=
  map fst (Py.pairwise (points segment)).

Definition all_points (gps_track : GPSTrack) : list GPSPoint :=
  flat_map points (segments gps_track).

(** Order-preserving subsequence. *)
Inductive subseq {A : Type} : list A -> list A -> Prop :=
| subseq_nil : subseq [] []
| subseq_skip : forall a l1 l2, subseq l1 l2 -> subseq l1 (a :: l2)
| subseq_keep : forall a l1 l2, subseq l1 l2 -> subseq (a :: l1) (a :: l2).

(** The smoothing loop seen from the last kept point: what is kept of [rest]
    once [last_kept] has been kept. *)
Fixpoint keep_after (dist : GPSPoint -> GPSPoint -> R) (smoothing_interval : R)
         (last_kept : GPSPoint) (rest : list GPSPoint) : list GPSPoint :=
  match rest with
  | [] => []
  | p :: rest' =>
      if Rgt_dec (dist last_kept p) smoothing_interval
      then p :: keep_after dist smoothing_interval p rest'
      else keep_after dist smoothing_interval last_kept rest'
  end.

(** A geodesic adapter for closed examples: bearing 0 (due north) and the
    taxicab distance of the coordinate differences.  Like pyproj's [Geod.inv]
    it returns distance 0 for two equal points and no negative distance; the
    examples depend on nothing else. *)
Definition taxicab_inv (lon1 lat1 lon2 lat2 : R) : R * R * R :=
  (0, 0, Rabs (lon2 - lon1) + Rabs (lat2 - lat1)).

Definition pt (lat lon ele : R) : GPSPoint :=
  {| latitude := lat; longitude := lon; elevation := ele |}.

Definition track_of (segs : list (list GPSPoint)) : GPSTrack :=
  {| segments := map (fun ps => {| points := ps |}) segs |}.

(** The distance component of [angle_and_distance_to]. *)
Definition distance_to (geod_inv : R -> R -> R -> R -> R * R * R)
           (p q : GPSPoint) : R :=
  snd (angle_and_distance_to geod_inv p q).

(** The angle component of [angle_and_distance_to]. *)
Definition angle_to (geod_inv : R -> R -> R -> R -> R * R * R)
           (p q : GPSPoint) : R :=
  fst (angle_and_distance_to geod_inv p q).

(** The segment the smoothing filter returns for a non-empty segment. *)
Definition smoothed (geod_inv : R -> R -> R -> R -> R * R * R) (d : R)
           (segment : GPSTrackSegment) : GPSTrackSegment :=
  {| points := match points segment with
               | [] => []
               | p0 :: rest => p0 :: keep_after (distance_to geod_inv) d p0 rest
               end |}.

(** The vertices one segment contributes to the mesh. *)
Definition segment_vertices (geod_inv : R -> R -> R -> R -> R * R * R)
           (config : GPSTrackConfig) (origin : GPSPoint) (m : R)
           (segment : GPSTrackSegment) : list vertex :=
  _get_vertices_for_segment geod_inv config
    (smoothed geod_inv (smoothing_interval config) segment) origin m.

(** The loop of [run] when no iteration raises: the buffer and the offset
    after the given segments. *)
Fixpoint emit (geod_inv : R -> R -> R -> R -> R * R * R)
         (config : GPSTrackConfig) (origin : GPSPoint) (m : R)
         (segs : list GPSTrackSegment) (st : ObjFile * Z) : ObjFile * Z :=
  match segs with
  | [] => st
  | segment :: segs' =>
      let vs := segment_vertices geod_inv config origin m segment in
      emit geod_inv config origin m segs'
           (add_polygons (add_vertices (fst st) vs)
                         (_get_polygons_for_vertices (Py.len vs) (snd st)),
            (snd st + Py.len vs)%Z)
  end.

Definition empty_obj : ObjFile := {| _vertices := []; _polygons := [] |}.

(** The precondition of [run]: at least one segment, and no empty segment. *)
Definition no_empty_segment (gps_track : GPSTrack) : Prop :=
  segments gps_track <> []
  /\ Forall (fun segment => points segment <> []) (segments gps_track).

(** The points of a track that receive a cross-section in [run]. *)
Definition cross_section_points (geod_inv : R -> R -> R -> R -> R * R * R)
           (config : GPSTrackConfig) (gps_track : GPSTrack) : list GPSPoint :=
  flat_map (fun segment =>
              from_points (smoothed geod_inv (smoothing_interval config) segment))
           (segments gps_track).

(** The planar projection as the specification words it: with
    [(rawBearing, d)] the adapter's bearing and distance from the global origin
    to [P] and [theta = radians(-90 - rawBearing)], the local coordinates are
    [x = sin(theta)*d] and [y = cos(theta)*d]. *)
Definition spec_local_xy (geod_inv : R -> R -> R -> R -> R * R * R)
           (origin P : GPSPoint) : R * R :=
  let '(rawBearing, _, d) :=
    geod_inv (longitude origin) (latitude origin) (longitude P) (latitude P) in
  let theta := radians (-90 - rawBearing) in
  (sin theta * d, cos theta * d).

(** The cross-section of a pair of consecutive points, with the location of
    [spec_local_xy]. *)
Definition spec_cross_section (geod_inv : R -> R -> R -> R -> R * R * R)
           (config : GPSTrackConfig) (origin : GPSPoint) (m : R)
           (pr : GPSPoint * GPSPoint) : list vertex :=
  _get_vertices_for_point config
    (spec_local_xy geod_inv origin (fst pr))
    (angle_to geod_inv (fst pr) (snd pr))
    (computed_elevation config m (fst pr)).

(** A two-point track for closed examples: 20 degrees apart in longitude,
    elevations 5 and 7. *)
Definition example_track : GPSTrack :=
  track_of [[pt 0 0 5; pt 0 20 7]].

Definition example_obj (config : GPSTrackConfig) : ObjFile :=
  {| _vertices := spec_cross_section taxicab_inv config (pt 0 0 5) 5
                    (pt 0 0 5, pt 0 20 7);
     _polygons := [[1; 2; 3; 4]; [1; 2; 3; 4]]%Z |}.

(* ------------------------------------------------------------------ *)
(** ** Ingestion ([GPSTrack.from_fit], [GPSTrack.from_file]) *)

(** What [record.get("enhanced_altitude", as_dict=True)] returns when the
    field is present: its ["units"] (possibly [None]) and its ["value"].
    The value is a number here; [from_fit] does not test it, and the
    dictionary whose value may be [None] as well is [FitAltitudeDict]
    below. *)
Record FitAltitude : Type := {
  units : option string;
  value : R
}.

(** A FIT ["record"] message, as far as [from_fit] reads it: the positions
    are 32-bit integers (semicircles) or [None]. *)
Record FitRecord : Type := {
  position_lat : option Z;
  position_long : option Z;
  enhanced_altitude : option FitAltitude
}.

(** [v * (180 / 2**31)]. *)
Definition semicircles_to_degrees (v : Z) : R := IZR v * (180 / 2 ^ 31).

(** The body of the loop of [from_fit]: [None] stands for [continue]. *)
Definition fit_point (record : FitRecord) : option GPSPoint :=
  match position_lat record, position_long record, enhanced_altitude record with
  | Some lat, Some long, Some elev =>
      match units elev with
      | Some u =>
          if String.eqb u "m"
          then Some {| latitude := semicircles_to_degrees lat;
                       longitude := semicircles_to_degrees long;
                       elevation := value elev |}
          else None
      | None => None
      end
  | _, _, _ => None
  end.

Definition from_fit (records : list FitRecord) : GPSTrack :=
  {| segments :=
       [ {| points := fold_left (fun pts record =>
                                   match fit_point record with
                                   | Some point => pts ++ [point]
                                   | None => pts
                                   end)
                                records [] |} ] |}.

(** [str.endswith]. *)
Definition endswith (s suffix : string) : bool :=
  let n := String.length s in
  let m := String.length suffix in
  if (m <=? n)%nat then String.eqb (substring (n - m) m s) suffix else false.

(** [GPSTrack.from_file], over the two parsers it dispatches to. *)
Definition from_file (from_gpx_file from_fit_file : string -> result GPSTrack)
           (file_path : string) : result GPSTrack :=
  if endswith file_path ".gpx" then from_gpx_file file_path
  else if endswith file_path ".fit" then from_fit_file file_path
  else Raise ValueError.

(* ------------------------------------------------------------------ *)
(** ** The earlier converter ([gpx-to-obj/gpx_to_obj.py])

    [GPXConfig] has the fields and defaults of [GPSTrackConfig],
    [get_angle_and_distance] the body of [angle_and_distance_to] and
    [_get_vertices_for_point] is the same method; they are shared.  A parsed
    GPX object is its tracks, each a list of segments, each a list of points. *)

Module GpxToObj.

Definition GPX : Type := list (list (list GPSPoint)).

Section Converter.

Variable geod_inv : R -> R -> R -> R -> R * R * R.
Variable config : GPSTrackConfig.

Definition get_angle_and_distance (from_point to_point : GPSPoint) : R * R :=
  angle_and_distance_to geod_inv from_point to_point.

Definition _get_track_points (gpx_obj : GPX) : result (list GPSPoint) :=
  if negb (length gpx_obj =? 1)%nat then Raise ValueError
  else
    track <- Py.first gpx_obj ;;
    if negb (length track =? 1)%nat then Raise ValueError
    else
      segment <- Py.first track ;;
      if (length segment <? 2)%nat then Raise ValueError
      else
        p0 <- Py.first segment ;;
        Ok (fold_left
              (fun pts p =>
                 let '(_, distance) := get_angle_and_distance (last pts p0) p in
                 if Rgt_dec distance (smoothing_interval config)
                 then pts ++ [p] else pts)
              (tl segment) [p0]).

Definition _get_polygons_for_vertices (vertex_count : Z)
  : list (Z * Z * Z * Z) :=
  ([(1, 2, 3, 4)]
   ++ flat_map (fun i =>
                  map (fun j => (i + (j + 1) mod 4, i + j,
                                 i + 4 + j, i + 4 + (j + 1) mod 4))
                      (Py.range 1 5 1))
               (Py.range 0 (vertex_count - 8) 4)
   ++ [(vertex_count - 3, vertex_count - 2, vertex_count - 1, vertex_count)])%Z.

(** One iteration of the loop of [_convert_gpx_to_obj]; the state is
    [current_location] and [vertices]. *)
Definition convert_step (min_elevation : R) (st : R * R * list vertex)
           (pr : GPSPoint * GPSPoint) : R * R * list vertex :=
  let '(current_location, vertices) := st in
  let '(from_point, to_point) := pr in
  let '(angle, distance) := get_angle_and_distance from_point to_point in
  let elevation :=
    base_height config
    + (elevation from_point - min_elevation) * elevation_multiplier config in
  (move_point current_location angle distance,
   vertices ++ _get_vertices_for_point config current_location angle elevation).

(** [_convert_gpx_to_obj]: [Ok (vertices, polygons)] is what is written to
    the file, after the ["o obj_0"] line. *)
Definition _convert_gpx_to_obj (gpx_obj : GPX)
  : result (list vertex * list (Z * Z * Z * Z)) :=
  points <- _get_track_points gpx_obj ;;
  min_elevation <- Py.min (map elevation points) ;;
  let '(_, vertices) :=
    fold_left (convert_step min_elevation) (Py.pairwise points) ((0, 0), []) in
  let polygons := _get_polygons_for_vertices (Py.len vertices) in
  Ok (vertices, polygons).

End Converter.

Definition tuple_to_list (t : Z * Z * Z * Z) : list Z :=
  let '(a, b, c, d) := t in [a; b; c; d].

End GpxToObj.

(* ------------------------------------------------------------------ *)
(** ** More vocabulary *)

(** The value a decoded JSON object gives to a key: the last one. *)
Fixpoint last_value (key : string) (kvs : list (string * R)) : option R :=
  match kvs with
  | [] => None
  | (k, v) :: kvs' =>
      match last_value key kvs' with
      | Some v' => Some v'
      | None => if String.eqb k key then Some v else None
      end
  end.

Definition is_field (k : string) : bool :=
  String.eqb k "elevation_multiplier" || String.eqb k "smoothing_interval"
  || String.eqb k "base_height" || String.eqb k "path_width".

Definition or_default (o : option R) (d : R) : R :=
  match o with
  | Some v => v
  | None => d
  end.

(** The faces of consecutive segments, each set offset by the number of
    vertices before it. *)
Fixpoint stitched (counts : list Z) (segment_offset : Z) : list (list Z) :=
  match counts with
  | [] => []
  | n :: counts' =>
      _get_polygons_for_vertices n segment_offset
      ++ stitched counts' (segment_offset + n)%Z
  end.

(** Squared Euclidean distance in the plane. *)
Definition sqdist (a b : R * R) : R :=
  (fst a - fst b) * (fst a - fst b) + (snd a - snd b) * (snd a - snd b).

Definition vxy (v : vertex) : R * R := fst v.

(** The number of cross-sections a segment contributes: one per pair of
    consecutive points kept by the smoothing filter. *)
Definition cross_section_count (geod_inv : R -> R -> R -> R -> R * R * R)
           (config : GPSTrackConfig) (segment : GPSTrackSegment) : nat :=
  length (points (smoothed geod_inv (smoothing_interval config) segment)) - 1.

(** What one FIT record contributes to the segment. *)
Definition fit_points (record : FitRecord) : list GPSPoint :=
  match fit_point record with
  | Some point => [point]
  | None => []
  end.

(** The values of a signed 32-bit integer, the type of a FIT position. *)
Definition int32 (v : Z) : Prop := (- 2 ^ 31 <= v < 2 ^ 31)%Z.

(** The condition under which [from_fit] skips a record. *)
Definition fit_incomplete (record : FitRecord) : Prop :=
  position_lat record = None
  \/ position_long record = None
  \/ enhanced_altitude record = None
  \/ exists elev, enhanced_altitude record = Some elev
                  /\ units elev <> Some "m"%string.

(** The computed elevations a vertex list carries: the height of the second
    vertex of each cross-section (four consecutive vertices). *)
Fixpoint elevated_heights (vertices : list vertex) : list R :=
  match vertices with
  | _ :: v2 :: _ :: _ :: rest => vz v2 :: elevated_heights rest
  | _ => []
  end.

(** [b] is the least element of [l]. *)
Definition is_least (b : R) (l : list R) : Prop :=
  In b l /\ forall h, In h l -> b <= h.

(** The dictionary of a FIT field as the parser gives it: the ["value"] of a
    field that is present may be [None] too. *)
Record FitAltitudeDict : Type := {
  dict_units : option string;
  dict_value : option R
}.

(** A FIT ["record"] message with such a dictionary. *)
Record FitMessage : Type := {
  message_lat : option Z;
  message_long : option Z;
  message_altitude : option FitAltitudeDict
}.

(** The point [from_fit] builds: [elevation=elev["value"]] is stored as it
    is, [None] included. *)
Record FitPoint : Type := {
  fit_latitude : R;
  fit_longitude : R;
  fit_elevation : option R
}.

(** The body of the loop of [from_fit] over such messages: the test reads
    [lat], [long], [elev] and [elev["units"]], never [elev["value"]]. *)
Definition fit_message_point (message : FitMessage) : option FitPoint :=
  match message_lat message, message_long message, message_altitude message with
  | Some lat, Some long, Some elev =>
      match dict_units elev with
      | Some u =>
          if String.eqb u "m"
          then Some {| fit_latitude := semicircles_to_degrees lat;
                       fit_longitude := semicircles_to_degrees long;
                       fit_elevation := dict_value elev |}
          else None
      | None => None
      end
  | _, _, _ => None
  end.

(** The points of the one segment [from_fit] returns. *)
Definition from_fit_messages (messages : list FitMessage) : list FitPoint :=
  fold_left (fun pts message =>
               match fit_message_point message with
               | Some point => pts ++ [point]
               | None => pts
               end)
            messages [].

(** A point whose elevation is a number, as [from_fit] stores it. *)
Definition as_fit_point (p : GPSPoint) : FitPoint :=
  {| fit_latitude := latitude p;
     fit_longitude := longitude p;
     fit_elevation := Some (elevation p) |}.

(** A record whose altitude carries a number, as the message it comes from. *)
Definition as_message (record : FitRecord) : FitMessage :=
  {| message_lat := position_lat record;
     message_long := position_long record;
     message_altitude :=
       option_map (fun elev => {| dict_units := units elev;
                                  dict_value := Some (value elev) |})
                  (enhanced_altitude record) |}.

(* ================================================================== *)
(** * Properties of the mesh indexer *)

Example polygons_4 :
  _get_polygons_for_vertices 4 0 = [[1;2;3;4]; [1;2;3;4]]%Z.
Proof. reflexivity. Qed.

Example polygons_12 :
  _get_polygons_for_vertices 12 0
  = [[1;2;3;4]; [2;1;5;6]; [3;2;6;7]; [0;3;7;4]; [1;4;8;5]; [9;10;11;12]]%Z.
Proof. reflexivity. Qed.

Lemma range_length (start stop step : Z) :
  length (Py.range start stop step) = Py.range_len start stop step.
Proof. unfold Py.range. now rewrite length_map, length_seq. Qed.

Lemma flat_map_length_const {A B : Type} (f : A -> list B) (n : nat) (l : list A) :
  (forall a, length (f a) = n) -> length (flat_map f l) = (n * length l)%nat.
Proof.
  intros Hf. induction l as [|a l IH]; simpl.
  - lia.
  - rewrite length_app, Hf, IH. lia.
Qed.

(** The number of faces the indexer emits: the two caps and four side faces
    per iteration of [range(0, vertex_count - 8, 4)]. *)
Lemma polygons_length (vertex_count segment_offset : Z) :
  length (_get_polygons_for_vertices vertex_count segment_offset)
  = (2 + 4 * Py.range_len 0 (vertex_count - 8) 4)%nat.
Proof.
  unfold _get_polygons_for_vertices.
  rewrite length_map, !length_app.
  rewrite flat_map_length_const with (n := 4%nat).
  - rewrite range_length. simpl. lia.
  - intros a. reflexivity.
Qed.

Lemma range_len_rings (n : nat) :
  Py.range_len 0 (4 * Z.of_nat n - 8) 4 = (n - 2)%nat.
Proof.
  unfold Py.range_len.
  replace (4 * Z.of_nat n - 8 - 0 + 4 - 1)%Z
    with (3 + (Z.of_nat n - 2) * 4)%Z by lia.
  rewrite Z.div_add by lia. change (3 / 4)%Z with 0%Z. lia.
Qed.

(** With [c] cross-sections (so [4*c] vertices) the code emits
    [2 + 4*(c-2)] faces (truncated subtraction): one ring of side faces fewer
    than there are consecutive pairs of cross-sections. *)
Lemma polygons_length_cross_sections (c : nat) (segment_offset : Z) :
  length (_get_polygons_for_vertices (4 * Z.of_nat c) segment_offset)
  = (2 + 4 * (c - 2))%nat.
Proof. now rewrite polygons_length, range_len_rings. Qed.

(** *** Vertex count of a segment *)

Lemma pairwise_length {A : Type} (l : list A) :
  length (Py.pairwise l) = (length l - 1)%nat.
Proof.
  unfold Py.pairwise. rewrite length_combine.
  destruct l as [|a l]; cbn [length tl]; lia.
Qed.

Lemma vertices_for_pair_length geod_inv config origin m pr :
  length (vertices_for_pair geod_inv config origin m pr) = 4%nat.
Proof.
  unfold vertices_for_pair, angle_and_distance_to, _get_vertices_for_point, move_point.
  destruct pr as [from_point to_point].
  destruct (geod_inv _ _ (longitude to_point) _) as [[? ?] ?].
  destruct (geod_inv _ _ (longitude from_point) _) as [[? ?] ?].
  reflexivity.
Qed.

(** Vertex count law: [N] points give [4*(N-1)] vertices. *)
Lemma vertices_for_segment_length geod_inv config segment origin m :
  length (_get_vertices_for_segment geod_inv config segment origin m)
  = (4 * (length (points segment) - 1))%nat.
Proof.
  unfold _get_vertices_for_segment.
  rewrite flat_map_length_const with (n := 4%nat).
  - now rewrite pairwise_length.
  - apply vertices_for_pair_length.
Qed.

(** Face count of the code for a segment of [N] points after smoothing. *)
Lemma segment_face_count geod_inv config segment origin m segment_offset :
  length (_get_polygons_for_vertices
            (Py.len (_get_vertices_for_segment geod_inv config segment origin m))
            segment_offset)
  = (2 + 4 * (length (points segment) - 3))%nat.
Proof.
  unfold Py.len. rewrite vertices_for_segment_length.
  rewrite Nat2Z.inj_mul. change (Z.of_nat 4) with 4%Z.
  rewrite polygons_length_cross_sections. lia.
Qed.

(** C1 (the code departs from the claim).  A segment of three points after
    smoothing yields 8 vertices, as the claim says, but the indexer then emits
    only the two caps [1 2 3 4] and [5 6 7 8]: 2 faces, where the claim's law
    [2 + 4*(N-2)] and its scenario promise 6.  No side face joins the two
    cross-sections, because [range(0, vertex_count - 8, 4)] is empty. *)
Theorem C1_three_points_give_two_faces :
  forall geod_inv config p1 p2 p3 origin m,
    let vs := _get_vertices_for_segment geod_inv config
                {| points := [p1; p2; p3] |} origin m in
    length vs = 8%nat
    /\ _get_polygons_for_vertices (Py.len vs) 0 = [[1;2;3;4]; [5;6;7;8]]%Z
    /\ length (_get_polygons_for_vertices (Py.len vs) 0) <> (2 + 4 * (3 - 2))%nat.
Proof.
  intros geod_inv config p1 p2 p3 origin m vs.
  assert (Hlen : length vs = 8%nat).
  { unfold vs. now rewrite vertices_for_segment_length. }
  split; [exact Hlen|].
  unfold Py.len. rewrite Hlen. split.
  - reflexivity.
  - simpl. lia.
Qed.

(** C2 (the code departs from the claim).  For a segment of four points after
    smoothing (12 vertices, cross-sections 1..4, 5..8 and 9..12) the faces do
    not close a tube: of the edges of the middle cross-section, 5-6, 6-7 and
    8-5 lie on one face each and 7-8 on none, and every edge of the last
    cross-section lies on its cap only. *)
Theorem C2_four_points_tube_not_closed :
  let faces := _get_polygons_for_vertices 12 0 in
  edge_count faces 5 6 = 1%nat
  /\ edge_count faces 6 7 = 1%nat
  /\ edge_count faces 7 8 = 0%nat
  /\ edge_count faces 8 5 = 1%nat
  /\ edge_count faces 9 10 = 1%nat
  /\ edge_count faces 10 11 = 1%nat
  /\ edge_count faces 11 12 = 1%nat
  /\ edge_count faces 12 9 = 1%nat.
Proof. cbv zeta. repeat split; reflexivity. Qed.

(** C8 (the code departs from the claim).  For a segment of four points after
    smoothing (12 vertices) the third side face is
    [offset+0, offset+3, offset+7, offset+4]: its first index is
    [segment_offset] itself, which lies outside the segment's own range
    [segment_offset+1 .. segment_offset+12]; it is index 0 for the first
    segment and the last vertex of the previous segment otherwise. *)
Theorem C8_side_face_leaves_segment_range :
  forall segment_offset : Z,
    In [segment_offset; segment_offset + 3; segment_offset + 7; segment_offset + 4]%Z
       (_get_polygons_for_vertices 12 segment_offset)
    /\ ~ in_segment_range segment_offset 12 segment_offset.
Proof.
  intros off. split.
  - assert (E : [off; off + 3; off + 7; off + 4]%Z
                = map (fun i => (i + off)%Z) [0; 3; 7; 4]%Z).
    { cbn [map]. rewrite Z.add_0_l, !(Z.add_comm off). reflexivity. }
    rewrite E. unfold _get_polygons_for_vertices. apply in_map.
    vm_compute. do 3 right. left. reflexivity.
  - unfold in_segment_range. lia.
Qed.

(* ================================================================== *)
(** * Properties of the smoothing filter *)

Section Smoothing.

Variable geod_inv : R -> R -> R -> R -> R * R * R.

Let dist := distance_to geod_inv.

Lemma smoothing_step_eq d p0 acc l p :
    smoothing_step geod_inv d p0 (acc ++ [l]) p
    = if Rgt_dec (dist l p) d then (acc ++ [l]) ++ [p] else acc ++ [l].
Proof.
    unfold smoothing_step, dist, distance_to. rewrite last_last.
    destruct (angle_and_distance_to geod_inv l p) as [a distance].
    reflexivity.
Qed.

  (** The appending loop computes [keep_after] behind the last kept point. *)
Lemma smoothing_fold d p0 rest :
    forall acc l,
      fold_left (smoothing_step geod_inv d p0) rest (acc ++ [l])
      = acc ++ l :: keep_after dist d l rest.
Proof.
    induction rest as [|p rest IH]; intros acc l; simpl.
    - reflexivity.
    - rewrite smoothing_step_eq.
      destruct (Rgt_dec (dist l p) d).
      + rewrite IH, <- app_assoc. reflexivity.
      + apply IH.
Qed.

Lemma filter_cons d p0 rest :
    filter_by_smoothing_interval geod_inv {| points := p0 :: rest |} d
    = Ok {| points := p0 :: keep_after dist d p0 rest |}.
Proof.
    unfold filter_by_smoothing_interval. simpl.
    change [p0] with ([] ++ [p0]).
    now rewrite smoothing_fold.
Qed.

Lemma filter_nil d :
    filter_by_smoothing_interval geod_inv {| points := [] |} d = Raise IndexError.
Proof. reflexivity. Qed.

Lemma keep_after_subseq d rest :
    forall l, subseq (keep_after dist d l rest) rest.
Proof.
    induction rest as [|p rest IH]; intros l; simpl.
    - constructor.
    - destruct (Rgt_dec (dist l p) d).
      + apply subseq_keep, IH.
      + apply subseq_skip, IH.
Qed.

Lemma keep_after_adjacent d rest :
    forall l a b,
      In (a, b) (Py.pairwise (l :: keep_after dist d l rest)) -> dist a b > d.
Proof.
    induction rest as [|p rest IH]; intros l a b; simpl.
    - intros [].
    - destruct (Rgt_dec (dist l p) d) as [Hgt|Hle].
      + intros [E|Hin].
        * inversion E; subst. exact Hgt.
        * apply (IH p). exact Hin.
      + apply IH.
Qed.

  (** Nothing is dropped when every point is farther than [d] from its
      predecessor. *)
Lemma keep_after_all d rest :
    forall l,
      (forall a b, In (a, b) (Py.pairwise (l :: rest)) -> dist a b > d) ->
      keep_after dist d l rest = rest.
Proof.
    induction rest as [|p rest IH]; intros l Hfar; simpl.
    - reflexivity.
    - destruct (Rgt_dec (dist l p) d) as [Hgt|Hle].
      + f_equal. apply IH. intros a b Hin. apply Hfar. right. exact Hin.
      + exfalso. apply Hle, Hfar. left. reflexivity.
Qed.

End Smoothing.

(** C7.  For a non-empty segment [S] and any threshold [d] (in particular
    every [d >= 0]) the smoothing filter returns a segment whose points are an
    order-preserving subsequence of those of [S], that starts with [S[0]], and
    in which every two adjacent points are at a distance strictly greater
    than [d]. *)
Theorem C7_smoothing_monotonicity :
  forall geod_inv (S : GPSTrackSegment) (d : R),
    points S <> [] ->
    exists S' p0,
      filter_by_smoothing_interval geod_inv S d = Ok S'
      /\ subseq (points S') (points S)
      /\ Py.first (points S) = Ok p0
      /\ Py.first (points S') = Ok p0
      /\ forall a b, In (a, b) (Py.pairwise (points S')) ->
                     distance_to geod_inv a b > d.
Proof.
  intros geod_inv [ps] d Hne. simpl in Hne.
  destruct ps as [|p0 rest]; [congruence|].
  exists {| points := p0 :: keep_after (distance_to geod_inv) d p0 rest |}, p0.
  split; [apply filter_cons|]. simpl. repeat split.
  - apply subseq_keep, keep_after_subseq.
  - apply keep_after_adjacent.
Qed.

Lemma C7_smoothing_monotonicity_witness :
  exists S' p0,
    filter_by_smoothing_interval taxicab_inv
      {| points := [pt 0 0 0; pt 0 0 0; pt 1 0 0] |} 0 = Ok S'
    /\ subseq (points S') [pt 0 0 0; pt 0 0 0; pt 1 0 0]
    /\ Py.first [pt 0 0 0; pt 0 0 0; pt 1 0 0] = Ok p0
    /\ Py.first (points S') = Ok p0
    /\ forall a b, In (a, b) (Py.pairwise (points S')) ->
                   distance_to taxicab_inv a b > 0.
Proof.
  apply (C7_smoothing_monotonicity taxicab_inv
           {| points := [pt 0 0 0; pt 0 0 0; pt 1 0 0] |} 0).
  simpl. discriminate.
Defined.

(** *** The degenerate thresholds *)

Lemma taxicab_distance (p q : GPSPoint) :
  distance_to taxicab_inv p q
  = Rabs (longitude q - longitude p) + Rabs (latitude q - latitude p).
Proof. reflexivity. Qed.

Lemma taxicab_nonneg (p q : GPSPoint) : 0 <= distance_to taxicab_inv p q.
Proof.
  rewrite taxicab_distance.
  apply Rplus_le_le_0_compat; apply Rabs_pos.
Qed.

Lemma taxicab_self (p : GPSPoint) : distance_to taxicab_inv p p = 0.
Proof.
  rewrite taxicab_distance.
  unfold Rminus. rewrite !Rplus_opp_r, Rabs_R0. lra.
Qed.

(** C5, refuted as stated: at threshold 0 a point that coincides with the
    last kept point (distance 0) is dropped, because the test
    [distance > smoothing_interval] is strict. *)
Lemma C5_duplicate_dropped_at_zero :
  let S := {| points := [pt 0 0 0; pt 0 0 0] |} in
  points S <> [] /\ 0 <= 0
  /\ filter_by_smoothing_interval taxicab_inv S 0 = Ok {| points := [pt 0 0 0] |}
  /\ filter_by_smoothing_interval taxicab_inv S 0 <> Ok S.
Proof.
  cbv zeta.
  assert (E : filter_by_smoothing_interval taxicab_inv
                {| points := [pt 0 0 0; pt 0 0 0] |} 0
              = Ok {| points := [pt 0 0 0] |}).
  { rewrite filter_cons. simpl.
    destruct (Rgt_dec (distance_to taxicab_inv (pt 0 0 0) (pt 0 0 0)) 0) as [H|H].
    - rewrite taxicab_self in H. lra.
    - reflexivity. }
  repeat split.
  - discriminate.
  - lra.
  - exact E.
  - rewrite E. intros H. inversion H.
Qed.

(** C5, amended.  For a non-empty segment and a threshold [d <= 0], with an
    adapter that returns no negative distance, the filter keeps every input
    point provided that, when [d = 0], no point is at distance 0 from its
    predecessor; for [d < 0] the proviso is empty.  The filter is a total
    function of a non-empty segment: it returns for every threshold. *)
Theorem C5_nonpositive_threshold_keeps_all :
  forall geod_inv (S : GPSTrackSegment) (d : R),
    points S <> [] ->
    d <= 0 ->
    (forall p q, 0 <= distance_to geod_inv p q) ->
    (d = 0 -> forall a b, In (a, b) (Py.pairwise (points S)) ->
                          distance_to geod_inv a b <> 0) ->
    filter_by_smoothing_interval geod_inv S d = Ok S.
Proof.
  intros geod_inv [ps] d Hne Hd Hpos Hzero. simpl in *.
  destruct ps as [|p0 rest]; [congruence|].
  rewrite filter_cons. rewrite keep_after_all; [reflexivity|].
  intros a b Hin.
  specialize (Hpos a b).
  destruct (Rle_lt_or_eq_dec d 0 Hd) as [Hlt|Heq].
  - lra.
  - specialize (Hzero Heq a b Hin). lra.
Qed.

Lemma C5_nonpositive_threshold_keeps_all_witness :
  filter_by_smoothing_interval taxicab_inv
    {| points := [pt 0 0 0; pt 1 0 0] |} 0
  = Ok {| points := [pt 0 0 0; pt 1 0 0] |}.
Proof.
  apply (C5_nonpositive_threshold_keeps_all taxicab_inv
           {| points := [pt 0 0 0; pt 1 0 0] |}).
  - simpl. discriminate.
  - lra.
  - apply taxicab_nonneg.
  - intros _ a b Hin. simpl in Hin. destruct Hin as [E|[]].
    inversion E; subst. rewrite taxicab_distance. simpl.
    unfold Rabs. repeat destruct Rcase_abs; lra.
Defined.

(* ================================================================== *)
(** * Properties of the conversion run *)

(** *** [min] and [mapM] *)

Lemma fold_Rmin_spec (xs : list R) :
  forall x,
    (fold_left Rmin xs x <= x)
    /\ (forall y, In y xs -> fold_left Rmin xs x <= y)
    /\ (fold_left Rmin xs x = x \/ In (fold_left Rmin xs x) xs).
Proof.
  induction xs as [|y xs IH]; intros x; simpl.
  - repeat split; [lra | intros y [] | now left].
  - destruct (IH (Rmin x y)) as (Hle & Hall & Hin).
    pose proof (Rmin_l x y). pose proof (Rmin_r x y).
    repeat split.
    + lra.
    + intros z [E|Hz]; [subst z; lra | now apply Hall].
    + destruct Hin as [E|Hin]; [|now right; right].
      rewrite E. unfold Rmin. destruct (Rle_dec x y); [now left | now right; left].
Qed.

Lemma py_min_spec (l : list R) (m : R) :
  Py.min l = Ok m -> In m l /\ forall x, In x l -> m <= x.
Proof.
  destruct l as [|x xs]; simpl; intros H; inversion H; subst; clear H.
  destruct (fold_Rmin_spec xs x) as (Hle & Hall & Hin).
  split.
  - destruct Hin as [E|Hin]; [left; now rewrite E | now right].
  - intros y [E|Hy]; [subst y; exact Hle | now apply Hall].
Qed.

Lemma py_min_nonempty (l : list R) :
  l <> [] -> exists m, Py.min l = Ok m.
Proof. destruct l; [congruence | intros _; eexists; reflexivity]. Qed.

Lemma mapM_ok {A B : Type} (f : A -> result B) (l : list A) (bs : list B) :
  mapM f l = Ok bs -> Forall2 (fun a b => f a = Ok b) l bs.
Proof.
  revert bs. induction l as [|a l IH]; simpl; intros bs H.
  - inversion H. constructor.
  - destruct (f a) as [b|e] eqn:Ea; simpl in H; [|discriminate].
    destruct (mapM f l) as [bs'|e] eqn:El; simpl in H; [|discriminate].
    inversion H; subst. constructor; [exact Ea | now apply IH].
Qed.

Lemma mapM_total {A B : Type} (f : A -> result B) (l : list A) :
  Forall (fun a => exists b, f a = Ok b) l ->
  exists bs, mapM f l = Ok bs /\ length bs = length l.
Proof.
  induction 1 as [|a l [b Hb] _ [bs [IH Hlen]]]; simpl.
  - exists []. split; reflexivity.
  - exists (b :: bs). rewrite Hb, IH. simpl. split; [reflexivity | now rewrite Hlen].
Qed.

Lemma mapM_raises {A B : Type} (f : A -> result B) (e : exn) (l : list A) :
  (forall a x, f a = Raise x -> x = e) ->
  Exists (fun a => f a = Raise e) l -> mapM f l = Raise e.
Proof.
  intros Honly. induction 1 as [a l Ha | a l _ IH]; simpl.
  - now rewrite Ha.
  - rewrite IH. destruct (f a) as [b|x] eqn:Ea; simpl; [reflexivity|].
    now rewrite (Honly _ _ Ea).
Qed.

(** *** [GPSTrack.min_elevation] *)

Lemma segment_min_ok (segment : GPSTrackSegment) :
  points segment <> [] ->
  exists m, GPSTrackSegment_min_elevation segment = Ok m.
Proof.
  intros Hne. apply py_min_nonempty.
  destruct (points segment); [congruence | discriminate].
Qed.

Lemma segment_min_empty (segment : GPSTrackSegment) :
  points segment = [] ->
  GPSTrackSegment_min_elevation segment = Raise ValueError.
Proof. unfold GPSTrackSegment_min_elevation. now intros ->. Qed.

Lemma segment_min_only_value_error (segment : GPSTrackSegment) (x : exn) :
  GPSTrackSegment_min_elevation segment = Raise x -> x = ValueError.
Proof.
  unfold GPSTrackSegment_min_elevation.
  destruct (map elevation (points segment)); simpl; intros H; now inversion H.
Qed.

Lemma track_min_ok (gps_track : GPSTrack) :
  no_empty_segment gps_track ->
  exists m, GPSTrack_min_elevation gps_track = Ok m.
Proof.
  intros [Hne Hall]. unfold GPSTrack_min_elevation.
  destruct (mapM_total GPSTrackSegment_min_elevation (l := segments gps_track))
    as [mins [Hmins Hlen]].
  - eapply Forall_impl; [|exact Hall]. intros s Hs. now apply segment_min_ok.
  - rewrite Hmins. simpl. apply py_min_nonempty.
    destruct mins; [|discriminate].
    destruct (segments gps_track); [congruence | discriminate].
Qed.

Lemma track_min_empty_segment (gps_track : GPSTrack) :
  Exists (fun segment => points segment = []) (segments gps_track) ->
  GPSTrack_min_elevation gps_track = Raise ValueError.
Proof.
  intros Hex. unfold GPSTrack_min_elevation.
  rewrite (@mapM_raises _ _ GPSTrackSegment_min_elevation ValueError).
  - reflexivity.
  - intros a x. apply segment_min_only_value_error.
  - eapply Exists_impl; [|exact Hex]. intros s. apply segment_min_empty.
Qed.

Lemma Forall2_In_l {A B : Type} (P : A -> B -> Prop) (l : list A) (l' : list B) (a : A) :
  Forall2 P l l' -> In a l -> exists b, In b l' /\ P a b.
Proof.
  induction 1 as [|x y l l' Hxy _ IH]; simpl; intros Hin.
  - contradiction.
  - destruct Hin as [->|Hin].
    + exists y. split; [now left | exact Hxy].
    + destruct (IH Hin) as [b [Hb Hab]]. exists b. split; [now right | exact Hab].
Qed.

Lemma Forall2_In_r {A B : Type} (P : A -> B -> Prop) (l : list A) (l' : list B) (b : B) :
  Forall2 P l l' -> In b l' -> exists a, In a l /\ P a b.
Proof.
  induction 1 as [|x y l l' Hxy _ IH]; simpl; intros Hin.
  - contradiction.
  - destruct Hin as [->|Hin].
    + exists x. split; [now left | exact Hxy].
    + destruct (IH Hin) as [a [Ha Hab]]. exists a. split; [now right | exact Hab].
Qed.

(** [GPSTrack.min_elevation] is the least elevation over all points of all
    segments of the track, and some point has it. *)
Lemma track_min_spec (gps_track : GPSTrack) (m : R) :
  GPSTrack_min_elevation gps_track = Ok m ->
  (forall p, In p (all_points gps_track) -> m <= elevation p)
  /\ (exists p, In p (all_points gps_track) /\ elevation p = m).
Proof.
  unfold GPSTrack_min_elevation, all_points.
  destruct (mapM GPSTrackSegment_min_elevation (segments gps_track))
    as [mins|e] eqn:Hmins; simpl; [|discriminate].
  intros Hm. apply mapM_ok in Hmins. apply py_min_spec in Hm.
  destruct Hm as [Hin Hlow]. split.
  - intros p Hp. apply in_flat_map in Hp. destruct Hp as [s [Hs Hps]].
    destruct (Forall2_In_l s Hmins Hs) as [b [Hb Hsb]].
    apply py_min_spec in Hsb. destruct Hsb as [_ Hsb].
    apply Rle_trans with b; [now apply Hlow|].
    apply Hsb. now apply in_map.
  - destruct (Forall2_In_r m Hmins Hin) as [s [Hs Hsm]].
    apply py_min_spec in Hsm. destruct Hsm as [Hsm _].
    apply in_map_iff in Hsm. destruct Hsm as [p [Hp Hps]].
    exists p. split; [|exact Hp].
    apply in_flat_map. exists s. split; assumption.
Qed.

Lemma some_empty_segment (segs : list GPSTrackSegment) :
  ~ Forall (fun segment => points segment <> []) segs ->
  Exists (fun segment => points segment = []) segs.
Proof.
  induction segs as [|s segs IH]; intros Hn.
  - exfalso. apply Hn. constructor.
  - destruct (points s) as [|p ps] eqn:Hp.
    + now left.
    + right. apply IH. intros Hall. apply Hn.
      constructor; [rewrite Hp; discriminate | exact Hall].
Qed.

(** *** The loop of [run] *)

Section Run.

Variable geod_inv : R -> R -> R -> R -> R * R * R.
Variable config : GPSTrackConfig.

Lemma filter_smoothed (segment : GPSTrackSegment) (d : R) :
  points segment <> [] ->
  filter_by_smoothing_interval geod_inv segment d
  = Ok (smoothed geod_inv d segment).
Proof.
  destruct segment as [[|p0 rest]]; simpl; [congruence|].
  intros _. apply filter_cons.
Qed.

Lemma filter_empty (segment : GPSTrackSegment) (d : R) :
  points segment = [] ->
  filter_by_smoothing_interval geod_inv segment d = Raise IndexError.
Proof. unfold filter_by_smoothing_interval. now intros ->. Qed.

Lemma run_segment_ok origin m st (segment : GPSTrackSegment) :
  points segment <> [] ->
  run_segment geod_inv config origin m st segment
  = Ok (emit geod_inv config origin m [segment] st).
Proof.
  intros Hne. unfold run_segment. destruct st as [obj off].
  rewrite filter_smoothed by exact Hne. reflexivity.
Qed.

Lemma run_segment_empty origin m st (segment : GPSTrackSegment) :
  points segment = [] ->
  run_segment geod_inv config origin m st segment = Raise IndexError.
Proof.
  intros He. unfold run_segment. destruct st as [obj off].
  now rewrite filter_empty by exact He.
Qed.

Lemma foldM_emit origin m (segs : list GPSTrackSegment) :
  Forall (fun segment => points segment <> []) segs ->
  forall st,
    foldM (run_segment geod_inv config origin m) segs st
    = Ok (emit geod_inv config origin m segs st).
Proof.
  induction 1 as [|segment segs Hne _ IH]; intros st; simpl.
  - reflexivity.
  - rewrite run_segment_ok by exact Hne. simpl. apply IH.
Qed.

Lemma emit_vertices origin m (segs : list GPSTrackSegment) :
  forall st,
    _vertices (fst (emit geod_inv config origin m segs st))
    = _vertices (fst st)
      ++ flat_map (segment_vertices geod_inv config origin m) segs.
Proof.
  induction segs as [|segment segs IH]; intros st; simpl.
  - now rewrite app_nil_r.
  - rewrite IH. simpl. now rewrite <- app_assoc.
Qed.

(** Under its precondition [run] returns, and hands the sink the buffer the
    loop has built from the first point of the first segment and the least
    elevation of the track. *)
Lemma run_ok (gps_track : GPSTrack) :
  no_empty_segment gps_track ->
  exists first_segment origin m,
    Py.first (segments gps_track) = Ok first_segment
    /\ Py.first (points first_segment) = Ok origin
    /\ GPSTrack_min_elevation gps_track = Ok m
    /\ run geod_inv config gps_track
       = Ok (fst (emit geod_inv config origin m (segments gps_track)
                       (empty_obj, 0%Z))).
Proof.
  intros Hpre. destruct (track_min_ok Hpre) as [m Hm].
  destruct Hpre as [Hne Hall]. unfold run. rewrite Hm.
  destruct (segments gps_track) as [|s0 segs] eqn:Hsegs; [congruence|].
  pose proof (Forall_inv Hall) as Hs0.
  destruct (points s0) as [|origin rest] eqn:Hp0; [congruence|].
  exists s0, origin, m. cbn [Py.first bind]. rewrite Hp0. cbn [Py.first bind].
  repeat split.
  rewrite foldM_emit by exact Hall. reflexivity.
Qed.

(** Without its precondition [run] raises. *)
Lemma run_raises (gps_track : GPSTrack) :
  ~ no_empty_segment gps_track ->
  exists e, run geod_inv config gps_track = Raise e.
Proof.
  intros Hpre. unfold run.
  destruct (segments gps_track) as [|s0 segs] eqn:Hsegs; simpl.
  - now exists IndexError.
  - destruct (points s0) as [|origin rest] eqn:Hp0; simpl.
    + now exists IndexError.
    + exists ValueError. rewrite track_min_empty_segment; [reflexivity|].
      rewrite Hsegs. apply some_empty_segment. intros Hall.
      apply Hpre. split; rewrite Hsegs; [discriminate | exact Hall].
Qed.

End Run.

(** *** What [run] returns *)

Lemma run_ok_inv geod_inv config (gps_track : GPSTrack) (obj : ObjFile) :
  run geod_inv config gps_track = Ok obj -> no_empty_segment gps_track.
Proof.
  intros Hrun. unfold no_empty_segment.
  assert (Hmin : exists m, GPSTrack_min_elevation gps_track = Ok m).
  { unfold run in Hrun.
    destruct (Py.first (segments gps_track)) as [s0|e]; simpl in Hrun; [|discriminate].
    destruct (Py.first (points s0)) as [o|e]; simpl in Hrun; [|discriminate].
    destruct (GPSTrack_min_elevation gps_track) as [m|e]; [now exists m | discriminate]. }
  destruct Hmin as [m Hm]. unfold GPSTrack_min_elevation in Hm.
  destruct (mapM GPSTrackSegment_min_elevation (segments gps_track))
    as [mins|e] eqn:Hmins; simpl in Hm; [|discriminate].
  apply mapM_ok in Hmins. split.
  - intros Hnil. rewrite Hnil in Hmins. inversion Hmins; subst. discriminate.
  - apply Forall_forall. intros s Hs Hnil.
    destruct (Forall2_In_l s Hmins Hs) as [b [_ Hb]].
    rewrite segment_min_empty in Hb by exact Hnil. discriminate.
Qed.

(** [run] returns exactly on the tracks that have a segment and no empty one. *)
Lemma run_ok_iff geod_inv config (gps_track : GPSTrack) :
  (exists obj, run geod_inv config gps_track = Ok obj)
  <-> no_empty_segment gps_track.
Proof.
  split.
  - intros [obj Hrun]. exact (run_ok_inv _ _ _ Hrun).
  - intros Hpre. destruct (run_ok geod_inv config Hpre) as (s0 & o & m & _ & _ & _ & Hrun).
    eexists. exact Hrun.
Qed.

(** The vertex buffer [run] hands to the sink. *)
Lemma run_vertices geod_inv config (gps_track : GPSTrack) (obj : ObjFile) :
  run geod_inv config gps_track = Ok obj ->
  exists first_segment origin m,
    Py.first (segments gps_track) = Ok first_segment
    /\ Py.first (points first_segment) = Ok origin
    /\ GPSTrack_min_elevation gps_track = Ok m
    /\ _vertices obj
       = flat_map (segment_vertices geod_inv config origin m) (segments gps_track).
Proof.
  intros Hrun. pose proof (run_ok_inv _ _ _ Hrun) as Hpre.
  destruct (run_ok geod_inv config Hpre) as (s0 & o & m & Hs0 & Ho & Hm & Hrun').
  rewrite Hrun' in Hrun. inversion Hrun; subst obj.
  exists s0, o, m. repeat split; try assumption.
  now rewrite emit_vertices.
Qed.

Lemma track_len_all_points (gps_track : GPSTrack) :
  GPSTrack_len gps_track = Py.len (all_points gps_track).
Proof.
  unfold GPSTrack_len, all_points, Py.len.
  assert (H : forall segs a,
             fold_left Z.add (map GPSTrackSegment_len segs) a
             = (a + Z.of_nat (length (flat_map points segs)))%Z).
  { induction segs as [|s segs IH]; intros a; simpl.
    - lia.
    - rewrite IH, length_app. unfold GPSTrackSegment_len, Py.len. lia. }
  rewrite H. lia.
Qed.

(** C10.  The smoothing filter raises [IndexError] on a segment with no point
    (it reads [self.points[0]]); [run] returns exactly on the tracks that have
    a segment and whose segments all have a point; the caller skips a track
    exactly when its total point count is zero, so a track such as
    [[p], []], with one point in all, is not skipped and makes [run] raise. *)
Theorem C10_run_needs_every_segment_nonempty :
  forall geod_inv,
    (forall d, filter_by_smoothing_interval geod_inv {| points := [] |} d
               = Raise IndexError)
    /\ (forall config gps_track,
           (exists obj, run geod_inv config gps_track = Ok obj)
           <-> no_empty_segment gps_track)
    /\ (forall config gps_track,
           main_file geod_inv config gps_track = Skipped
           <-> length (all_points gps_track) = 0%nat)
    /\ (forall config p,
           length (all_points (track_of [[p]; []])) = 1%nat
           /\ main_file geod_inv config (track_of [[p]; []]) = Failed ValueError).
Proof.
  intros geod_inv. split; [|split; [|split]].
  - intros d. reflexivity.
  - intros config gps_track. apply run_ok_iff.
  - intros config gps_track. unfold main_file.
    rewrite track_len_all_points. unfold Py.len.
    destruct (Z.eqb_spec (Z.of_nat (length (all_points gps_track))) 0) as [E|E].
    + split; [lia | reflexivity].
    + split.
      * destruct (run geod_inv (GPSTrackToOBJ config) gps_track); discriminate.
      * lia.
  - intros config p. split; reflexivity.
Qed.

(** C3 (the code departs from the claim).  For a track whose only segment has
    a single point, [run] raises nothing: it hands to the sink a mesh with no
    vertex and the two cap faces [1 2 3 4] and [-3 -2 -1 0], and the caller
    does not skip the file. *)
Theorem C3_single_point_segment_is_written :
  forall geod_inv config (p : GPSPoint),
    let degenerate := {| _vertices := [];
                         _polygons := [[1; 2; 3; 4]; [-3; -2; -1; 0]]%Z |} in
    filter_by_smoothing_interval geod_inv {| points := [p] |}
      (smoothing_interval config) = Ok {| points := [p] |}
    /\ run geod_inv config (track_of [[p]]) = Ok degenerate
    /\ main_file geod_inv (Some config) (track_of [[p]]) = Written degenerate.
Proof.
  intros geod_inv config p degenerate. repeat split.
Qed.

(** *** The planar projection *)

(** The code's cross-section of a pair is the one at the location the
    specification words: [move_point((0, 0), angle, distance)] adds to zero. *)
Lemma vertices_for_pair_spec geod_inv config origin m pr :
  vertices_for_pair geod_inv config origin m pr
  = spec_cross_section geod_inv config origin m pr.
Proof.
  destruct pr as [from_point to_point].
  unfold vertices_for_pair, spec_cross_section, spec_local_xy, angle_to,
    angle_and_distance_to, move_point. simpl.
  destruct (geod_inv (longitude from_point) (latitude from_point)
                     (longitude to_point) (latitude to_point)) as [[b1 k1] d1].
  destruct (geod_inv (longitude origin) (latitude origin)
                     (longitude from_point) (latitude from_point)) as [[b0 k0] d0].
  simpl. rewrite !Rplus_0_l. reflexivity.
Qed.

Lemma segment_vertices_spec geod_inv config origin m segment :
  segment_vertices geod_inv config origin m segment
  = flat_map (spec_cross_section geod_inv config origin m)
             (Py.pairwise
                (points (smoothed geod_inv (smoothing_interval config) segment))).
Proof.
  unfold segment_vertices, _get_vertices_for_segment.
  apply flat_map_ext. intros pr. apply vertices_for_pair_spec.
Qed.

(** *** A worked run *)

Lemma taxicab_example_distance :
  distance_to taxicab_inv (pt 0 0 5) (pt 0 20 7) = 20.
Proof.
  rewrite taxicab_distance. simpl.
  unfold Rabs. repeat destruct Rcase_abs; lra.
Qed.

Lemma example_track_ok : no_empty_segment example_track.
Proof.
  split; simpl.
  - discriminate.
  - constructor; [simpl; discriminate | constructor].
Qed.

Lemma example_smoothed (d : R) :
  d < 20 ->
  smoothed taxicab_inv d {| points := [pt 0 0 5; pt 0 20 7] |}
  = {| points := [pt 0 0 5; pt 0 20 7] |}.
Proof.
  intros Hd. unfold smoothed. simpl.
  destruct (Rgt_dec (distance_to taxicab_inv (pt 0 0 5) (pt 0 20 7)) d) as [H|H].
  - reflexivity.
  - rewrite taxicab_example_distance in H. lra.
Qed.

Lemma example_min_elevation : GPSTrack_min_elevation example_track = Ok 5.
Proof.
  unfold GPSTrack_min_elevation, GPSTrackSegment_min_elevation. simpl.
  unfold Rmin. destruct (Rle_dec 5 7); [reflexivity | lra].
Qed.

(** With the taxicab adapter and a smoothing interval below 20, [run] keeps
    both points of [example_track] and emits one cross-section and the two
    caps. *)
Lemma run_example (config : GPSTrackConfig) :
  smoothing_interval config < 20 ->
  run taxicab_inv config example_track = Ok (example_obj config).
Proof.
  intros Hd.
  destruct (run_ok taxicab_inv config example_track_ok)
    as (s0 & o & m & Hs0 & Ho & Hm & Hrun).
  rewrite example_min_elevation in Hm. inversion Hm; subst m.
  simpl in Hs0. inversion Hs0; subst s0.
  simpl in Ho. inversion Ho; subst o.
  rewrite Hrun. simpl.
  assert (Hvs : segment_vertices taxicab_inv config (pt 0 0 5) 5
                  {| points := [pt 0 0 5; pt 0 20 7] |}
                = spec_cross_section taxicab_inv config (pt 0 0 5) 5
                    (pt 0 0 5, pt 0 20 7)).
  { rewrite segment_vertices_spec, example_smoothed by exact Hd.
    unfold Py.pairwise. cbn [points combine tl flat_map]. apply app_nil_r. }
  rewrite Hvs. reflexivity.
Qed.

(** C9.  In a run that returns, the vertices are the cross-sections of the
    consecutive pairs of the smoothed segments, each placed at the local
    coordinates [x = sin(theta)*d], [y = cos(theta)*d] of its point [P], where
    [(rawBearing, d)] is the adapter's answer from the global origin (the
    first point of the first segment, the same for every segment) to [P] and
    [theta = radians(-90 - rawBearing)]; this is what
    [move_point((0, 0), angle_to_origin, distance_to_origin)] computes. *)
Theorem C9_planar_projection :
  forall geod_inv config (gps_track : GPSTrack) (obj : ObjFile),
    run geod_inv config gps_track = Ok obj ->
    exists first_segment origin m,
      Py.first (segments gps_track) = Ok first_segment
      /\ Py.first (points first_segment) = Ok origin
      /\ _vertices obj
         = flat_map
             (fun segment =>
                flat_map (spec_cross_section geod_inv config origin m)
                  (Py.pairwise
                     (points (smoothed geod_inv (smoothing_interval config)
                                       segment))))
             (segments gps_track)
      /\ forall P,
           move_point (0, 0) (angle_to geod_inv origin P)
                      (distance_to geod_inv origin P)
           = spec_local_xy geod_inv origin P.
Proof.
  intros geod_inv config gps_track obj Hrun.
  destruct (run_vertices _ _ _ Hrun) as (s0 & origin & m & Hs0 & Ho & _ & Hvs).
  exists s0, origin, m. repeat split; try assumption.
  - rewrite Hvs. apply flat_map_ext. intros segment.
    apply segment_vertices_spec.
  - intros P. unfold move_point, spec_local_xy, angle_to, distance_to,
      angle_and_distance_to.
    destruct (geod_inv (longitude origin) (latitude origin)
                       (longitude P) (latitude P)) as [[b k] d].
    simpl. now rewrite !Rplus_0_l.
Qed.

Lemma C9_planar_projection_witness :
  exists first_segment origin m,
    Py.first (segments example_track) = Ok first_segment
    /\ Py.first (points first_segment) = Ok origin
    /\ _vertices (example_obj default_config)
       = flat_map
           (fun segment =>
              flat_map (spec_cross_section taxicab_inv default_config origin m)
                (Py.pairwise
                   (points (smoothed taxicab_inv
                              (smoothing_interval default_config) segment))))
           (segments example_track)
    /\ forall P,
         move_point (0, 0) (angle_to taxicab_inv origin P)
                    (distance_to taxicab_inv origin P)
         = spec_local_xy taxicab_inv origin P.
Proof.
  apply (C9_planar_projection taxicab_inv default_config example_track).
  apply run_example. simpl. lra.
Defined.

(** *** Configuration values *)


(** *** Elevations *)

Lemma subseq_In {A : Type} (l1 l2 : list A) (a : A) :
  subseq l1 l2 -> In a l1 -> In a l2.
Proof.
  induction 1 as [|b l1 l2 _ IH|b l1 l2 _ IH]; simpl; intros Hin.
  - contradiction.
  - right. now apply IH.
  - destruct Hin as [E|Hin]; [now left | right; now apply IH].
Qed.

Lemma smoothed_incl geod_inv d (segment : GPSTrackSegment) (p : GPSPoint) :
  In p (points (smoothed geod_inv d segment)) -> In p (points segment).
Proof.
  unfold smoothed. destruct (points segment) as [|p0 rest]; simpl.
  - intros [].
  - intros [E|Hin]; [now left | right].
    eapply subseq_In; [apply keep_after_subseq | exact Hin].
Qed.

Lemma from_points_incl (segment : GPSTrackSegment) (p : GPSPoint) :
  In p (from_points segment) -> In p (points segment).
Proof.
  unfold from_points, Py.pairwise. intros Hin.
  apply in_map_iff in Hin. destruct Hin as [[a b] [E Hin]].
  simpl in E. subst a. eapply in_combine_l. exact Hin.
Qed.

Lemma cross_section_points_incl geod_inv config (gps_track : GPSTrack) p :
  In p (cross_section_points geod_inv config gps_track) ->
  In p (all_points gps_track).
Proof.
  unfold cross_section_points, all_points. intros Hin.
  apply in_flat_map in Hin. destruct Hin as [s [Hs Hin]].
  apply in_flat_map. exists s. split; [exact Hs|].
  eapply smoothed_incl, from_points_incl, Hin.
Qed.

(** The heights of a cross-section: the ground and the computed elevation. *)
Lemma cross_section_height geod_inv config origin m pr (v : vertex) :
  In v (spec_cross_section geod_inv config origin m pr) ->
  vz v = 0 \/ vz v = computed_elevation config m (fst pr).
Proof.
  unfold spec_cross_section, _get_vertices_for_point.
  destruct (spec_local_xy geod_inv origin (fst pr)) as [x y].
  simpl. intros [E|[E|[E|[E|[]]]]]; subst v; simpl; auto.
Qed.

Lemma computed_elevation_ge config (m : R) (p : GPSPoint) :
  m <= elevation p -> 0 <= elevation_multiplier config ->
  base_height config <= computed_elevation config m p.
Proof.
  intros Hm Hk. unfold computed_elevation.
  assert (0 <= (elevation p - m) * elevation_multiplier config).
  { apply Rmult_le_pos; lra. }
  lra.
Qed.

Lemma computed_elevation_datum config (m : R) (p : GPSPoint) :
  0 < elevation_multiplier config ->
  (computed_elevation config m p = base_height config <-> elevation p = m).
Proof.
  intros Hk. unfold computed_elevation. split.
  - intros E.
    assert (Hz : (elevation p - m) * elevation_multiplier config = 0) by lra.
    apply Rmult_integral in Hz. destruct Hz; lra.
  - intros ->. unfold Rminus. rewrite Rplus_opp_r. lra.
Qed.

(** With a multiplier of 0 every computed elevation is [base_height],
    whichever points received a cross-section. *)
Lemma computed_elevation_flat config (m : R) (p : GPSPoint) :
  elevation_multiplier config = 0 ->
  computed_elevation config m p = base_height config.
Proof. intros Hk. unfold computed_elevation. rewrite Hk. lra. Qed.

(* ================================================================== *)
(** * More on the mesh indexer: what does hold *)

Lemma in_range_iff (start stop step x : Z) :
  In x (Py.range start stop step)
  <-> exists n : nat, (n < Py.range_len start stop step)%nat
                      /\ x = (start + step * Z.of_nat n)%Z.
Proof.
  unfold Py.range. rewrite in_map_iff. split.
  - intros [n [E Hn]]. apply in_seq in Hn. exists n. split; [lia | now symmetry].
  - intros [n [Hn E]]. exists n. split; [now symmetry | apply in_seq; lia].
Qed.

Lemma in_range_1_5 (j : Z) :
  In j (Py.range 1 5 1) <-> (j = 1 \/ j = 2 \/ j = 3 \/ j = 4)%Z.
Proof.
  change (Py.range 1 5 1) with [1; 2; 3; 4]%Z. simpl. intuition.
Qed.

(** The faces before the offset is added. *)
Lemma in_polygons (vertex_count segment_offset : Z) (face : list Z) :
  In face (_get_polygons_for_vertices vertex_count segment_offset)
  <-> exists f,
        face = map (fun i => (i + segment_offset)%Z) f
        /\ (f = [1; 2; 3; 4]%Z
            \/ (exists i j, In i (Py.range 0 (vertex_count - 8) 4)
                            /\ In j (Py.range 1 5 1) /\ f = side_face i j)
            \/ f = [vertex_count - 3; vertex_count - 2;
                    vertex_count - 1; vertex_count]%Z).
Proof.
  unfold _get_polygons_for_vertices. rewrite in_map_iff. split.
  - intros [f [E Hf]]. exists f. split; [now symmetry|].
    apply in_app_or in Hf. destruct Hf as [[E1|[]]|Hf]; [now left|].
    apply in_app_or in Hf. destruct Hf as [Hf|[E2|[]]]; [|now right; right].
    right; left. apply in_flat_map in Hf. destruct Hf as [i [Hi Hf]].
    apply in_map_iff in Hf. destruct Hf as [j [Ej Hj]].
    exists i, j. repeat split; [assumption | assumption | now symmetry].
  - intros [f [E Hf]]. exists f. split; [now symmetry|].
    destruct Hf as [E1|[(i & j & Hi & Hj & E2)|E3]].
    + apply in_or_app. left. now left.
    + apply in_or_app. right. apply in_or_app. left.
      apply in_flat_map. exists i. split; [exact Hi|].
      apply in_map_iff. exists j. split; [now symmetry | exact Hj].
    + apply in_or_app. right. apply in_or_app. right. now left.
Qed.

(** Every vertex index of a segment with at least one cross-section lies on
    some face. *)
Lemma every_vertex_on_a_face (c : nat) (segment_offset k : Z) :
  (1 <= c)%nat ->
  in_segment_range segment_offset (4 * Z.of_nat c) k ->
  exists face,
    In face (_get_polygons_for_vertices (4 * Z.of_nat c) segment_offset)
    /\ In k face.
Proof.
  intros Hc [Hlo Hhi].
  assert (Hk : exists k', k = (k' + segment_offset)%Z
                          /\ (1 <= k' <= 4 * Z.of_nat c)%Z).
  { exists (k - segment_offset)%Z. lia. }
  destruct Hk as [k' [-> Hk']]. clear Hlo Hhi.
  set (shift := fun i => (i + segment_offset)%Z).
  destruct (Z_le_gt_dec k' 4) as [Hfirst|Hgt4].
  - exists (map shift [1; 2; 3; 4]%Z). split.
    + apply in_polygons. eexists. split; [reflexivity | now left].
    + apply (in_map shift _ k').
      assert (k' = 1 \/ k' = 2 \/ k' = 3 \/ k' = 4)%Z by lia.
      simpl. intuition.
  - destruct (Z_le_gt_dec (4 * Z.of_nat c - 3) k') as [Hlast|Hmid].
    + exists (map shift [4 * Z.of_nat c - 3; 4 * Z.of_nat c - 2;
                         4 * Z.of_nat c - 1; 4 * Z.of_nat c]%Z).
      split.
      * apply in_polygons. eexists. split; [reflexivity | now right; right].
      * apply (in_map shift _ k').
        assert (k' = 4 * Z.of_nat c - 3 \/ k' = 4 * Z.of_nat c - 2
                \/ k' = 4 * Z.of_nat c - 1 \/ k' = 4 * Z.of_nat c)%Z by lia.
        simpl. intuition.
    + (* an inner cross-section: reached from the ring before it *)
      set (q := ((k' - 1) / 4)%Z).
      assert (Hq : (4 * q <= k' - 1 < 4 * q + 4)%Z).
      { unfold q. pose proof (Z.div_mod (k' - 1) 4 ltac:(lia)).
        pose proof (Z.mod_pos_bound (k' - 1) 4 ltac:(lia)). lia. }
      exists (map shift (side_face (4 * (q - 1)) (k' - 4 * q))).
      split.
      * apply in_polygons. eexists. split; [reflexivity|]. right; left.
        exists (4 * (q - 1))%Z, (k' - 4 * q)%Z. repeat split.
        -- apply in_range_iff. exists (Z.to_nat (q - 1)). split.
           ++ rewrite range_len_rings. lia.
           ++ lia.
        -- apply in_range_1_5. lia.
      * apply (in_map shift _ k'). unfold side_face.
        right; right; left. lia.
Qed.

(** No face index leaves [segment_offset .. segment_offset + vertex_count]:
    index [segment_offset + 0] is the only one outside the segment's range. *)
Lemma face_indices_bounded (c : nat) (segment_offset k : Z) (face : list Z) :
  (1 <= c)%nat ->
  In face (_get_polygons_for_vertices (4 * Z.of_nat c) segment_offset) ->
  In k face ->
  (segment_offset <= k <= segment_offset + 4 * Z.of_nat c)%Z.
Proof.
  intros Hc Hface Hk. apply in_polygons in Hface.
  destruct Hface as [f [E Hf]]. subst face.
  apply in_map_iff in Hk. destruct Hk as [x [Ex Hx]]. subst k.
  assert (0 <= x <= 4 * Z.of_nat c)%Z; [|lia].
  destruct Hf as [E1|[(i & j & Hi & Hj & E2)|E3]]; subst f.
  - cbn [In] in Hx. destruct Hx as [<- | [<- | [<- | [<- | []]]]]; lia.
  - apply in_range_iff in Hi. destruct Hi as [n [Hn Ei]].
    rewrite range_len_rings in Hn.
    apply in_range_1_5 in Hj.
    unfold side_face in Hx.
    destruct Hj as [-> | [-> | [-> | ->]]];
      [ change ((1 + 1) mod 4)%Z with 2%Z in Hx
      | change ((2 + 1) mod 4)%Z with 3%Z in Hx
      | change ((3 + 1) mod 4)%Z with 0%Z in Hx
      | change ((4 + 1) mod 4)%Z with 1%Z in Hx ];
      cbn [In] in Hx; destruct Hx as [<- | [<- | [<- | [<- | []]]]]; lia.
  - cbn [In] in Hx. destruct Hx as [<- | [<- | [<- | [<- | []]]]]; lia.
Qed.

(** With one or two cross-sections (two or three points after smoothing) only
    the caps are emitted, and every index is in the segment's own range. *)
Lemma caps_only_in_range (c : nat) (segment_offset k : Z) (face : list Z) :
  (c = 1 \/ c = 2)%nat ->
  In face (_get_polygons_for_vertices (4 * Z.of_nat c) segment_offset) ->
  In k face ->
  in_segment_range segment_offset (4 * Z.of_nat c) k.
Proof.
  intros Hc Hface Hk. apply in_polygons in Hface.
  destruct Hface as [f [E Hf]]. subst face.
  apply in_map_iff in Hk. destruct Hk as [x [Ex Hx]]. subst k.
  unfold in_segment_range.
  assert (1 <= x <= 4 * Z.of_nat c)%Z; [|lia].
  destruct Hf as [E1|[(i & j & Hi & Hj & E2)|E3]]; subst f.
  - cbn [In] in Hx. destruct Hx as [<- | [<- | [<- | [<- | []]]]]; lia.
  - apply in_range_iff in Hi. destruct Hi as [n [Hn Ei]].
    rewrite range_len_rings in Hn. lia.
  - cbn [In] in Hx. destruct Hx as [<- | [<- | [<- | [<- | []]]]]; lia.
Qed.

(** A segment reduced to one point by smoothing contributes no vertex, yet
    the indexer still emits the two caps, around [segment_offset]. *)
Lemma one_point_segment_emits_caps geod_inv config origin m
      (segment : GPSTrackSegment) (segment_offset : Z) (p : GPSPoint) :
  points (smoothed geod_inv (smoothing_interval config) segment) = [p] ->
  segment_vertices geod_inv config origin m segment = []
  /\ _get_polygons_for_vertices
       (Py.len (segment_vertices geod_inv config origin m segment))
       segment_offset
     = [[1 + segment_offset; 2 + segment_offset;
         3 + segment_offset; 4 + segment_offset];
        [-3 + segment_offset; -2 + segment_offset;
         -1 + segment_offset; 0 + segment_offset]]%Z.
Proof.
  intros Hone.
  assert (Hvs : segment_vertices geod_inv config origin m segment = []).
  { unfold segment_vertices, _get_vertices_for_segment. now rewrite Hone. }
  split; [exact Hvs|]. rewrite Hvs. reflexivity.
Qed.

(* ================================================================== *)
(** * Further properties of the smoothing filter *)

(** A loop that only appends keeps what it started from. *)
Lemma smoothing_fold_prefix geod_inv d p0 (T : list GPSPoint) :
  forall acc, exists kept,
    fold_left (smoothing_step geod_inv d p0) T acc = acc ++ kept.
Proof.
  induction T as [|p T IH]; intros acc; simpl.
  - exists []. now rewrite app_nil_r.
  - unfold smoothing_step at 2.
    destruct (angle_and_distance_to geod_inv (last acc p0) p) as [a distance].
    destruct (Rgt_dec distance d).
    + destruct (IH (acc ++ [p])) as [kept Hk]. exists (p :: kept).
      rewrite Hk, <- app_assoc. reflexivity.
    + apply IH.
Qed.

(** X1.  Filtering the filter's own output with the same threshold changes
    nothing. *)
Theorem smoothing_idempotent :
  forall geod_inv (S S' : GPSTrackSegment) (d : R),
    filter_by_smoothing_interval geod_inv S d = Ok S' ->
    filter_by_smoothing_interval geod_inv S' d = Ok S'.
Proof.
  intros geod_inv [ps] S' d H.
  destruct ps as [|p0 rest]; [discriminate|].
  rewrite filter_cons in H. inversion H; subst S'; clear H.
  rewrite filter_cons. rewrite keep_after_all; [reflexivity|].
  apply keep_after_adjacent.
Qed.

Lemma example_filter_duplicate :
  filter_by_smoothing_interval taxicab_inv
    {| points := [pt 0 0 5; pt 0 0 5; pt 0 20 7] |} 0
  = Ok {| points := [pt 0 0 5; pt 0 20 7] |}.
Proof.
  rewrite filter_cons. simpl.
  destruct (Rgt_dec (distance_to taxicab_inv (pt 0 0 5) (pt 0 0 5)) 0) as [H|_].
  { rewrite taxicab_self in H. lra. }
  destruct (Rgt_dec (distance_to taxicab_inv (pt 0 0 5) (pt 0 20 7)) 0) as [_|H].
  - reflexivity.
  - rewrite taxicab_example_distance in H. lra.
Qed.

Lemma smoothing_idempotent_witness :
  filter_by_smoothing_interval taxicab_inv
    {| points := [pt 0 0 5; pt 0 20 7] |} 0
  = Ok {| points := [pt 0 0 5; pt 0 20 7] |}.
Proof.
  apply (smoothing_idempotent taxicab_inv
           {| points := [pt 0 0 5; pt 0 0 5; pt 0 20 7] |}).
  apply example_filter_duplicate.
Defined.

Lemma keep_after_none geod_inv (p0 : GPSPoint) (rest : list GPSPoint) (d : R) :
  (forall p, In p rest -> distance_to geod_inv p0 p <= d) ->
  keep_after (distance_to geod_inv) d p0 rest = [].
Proof.
  intros Hnear. induction rest as [|p rest IH]; simpl.
  - reflexivity.
  - destruct (Rgt_dec (distance_to geod_inv p0 p) d) as [Hgt|_].
    + exfalso. specialize (Hnear p (or_introl eq_refl)). lra.
    + apply IH. intros q Hq. apply Hnear. now right.
Qed.

(** X2.  When no later point is farther than the threshold from the first point,
    the first point alone is kept. *)
Theorem smoothing_collapses_to_first_point :
  forall geod_inv (p0 : GPSPoint) (rest : list GPSPoint) (d : R),
    (forall p, In p rest -> distance_to geod_inv p0 p <= d) ->
    filter_by_smoothing_interval geod_inv {| points := p0 :: rest |} d
    = Ok {| points := [p0] |}.
Proof.
  intros geod_inv p0 rest d Hnear.
  rewrite filter_cons, keep_after_none by exact Hnear. reflexivity.
Qed.

Lemma smoothing_collapses_to_first_point_witness :
  filter_by_smoothing_interval taxicab_inv
    {| points := [pt 0 0 5; pt 0 20 7] |} 20
  = Ok {| points := [pt 0 0 5] |}.
Proof.
  apply (smoothing_collapses_to_first_point taxicab_inv).
  intros p [<-|[]]. rewrite taxicab_example_distance. lra.
Defined.

(** X3.  Points recorded later never change what was kept of the earlier ones:
    the result for a longer segment extends the result for its prefix. *)
Theorem smoothing_extends_prefix :
  forall geod_inv (S S' : GPSTrackSegment) (T : list GPSPoint) (d : R),
    filter_by_smoothing_interval geod_inv S d = Ok S' ->
    exists kept,
      filter_by_smoothing_interval geod_inv {| points := points S ++ T |} d
      = Ok {| points := points S' ++ kept |}.
Proof.
  intros geod_inv [ps] S' T d H.
  destruct ps as [|p0 rest]; [discriminate|].
  unfold filter_by_smoothing_interval in *. simpl in *.
  inversion H; subst S'; clear H. simpl.
  rewrite fold_left_app.
  destruct (smoothing_fold_prefix geod_inv d p0 T
              (fold_left (smoothing_step geod_inv d p0) rest [p0]))
    as [kept Hk].
  exists kept. now rewrite Hk.
Qed.

Lemma smoothing_extends_prefix_witness :
  exists kept,
    filter_by_smoothing_interval taxicab_inv
      {| points := [pt 0 0 5; pt 0 0 5; pt 0 20 7] ++ [pt 0 0 5] |} 0
    = Ok {| points := [pt 0 0 5; pt 0 20 7] ++ kept |}.
Proof.
  apply (@smoothing_extends_prefix taxicab_inv
           {| points := [pt 0 0 5; pt 0 0 5; pt 0 20 7] |}
           {| points := [pt 0 0 5; pt 0 20 7] |} [pt 0 0 5] 0).
  apply example_filter_duplicate.
Defined.

(* ================================================================== *)
(** * Geometry of [move_point] and of a cross-section *)

Lemma sin2_cos2_mult (a : R) : sin a * sin a + cos a * cos a = 1.
Proof. pose proof (sin2_cos2 a) as H. unfold Rsqr in H. exact H. Qed.

(** X4.  [move_point] displaces a point by exactly [distance]. *)
Theorem move_point_displacement :
  forall (point : R * R) (angle distance : R),
    sqdist (move_point point angle distance) point = distance * distance.
Proof.
  intros [x y] angle distance. unfold sqdist, move_point. simpl.
  pose proof (sin2_cos2_mult angle) as H.
  replace ((x + sin angle * distance - x) * (x + sin angle * distance - x)
           + (y + cos angle * distance - y) * (y + cos angle * distance - y))
    with ((sin angle * sin angle + cos angle * cos angle)
          * (distance * distance)) by ring.
  rewrite H. ring.
Qed.

(** X5.  Two moves along the same angle add their distances; a move by 0 stays. *)
Theorem move_point_same_angle_adds :
  forall (point : R * R) (angle d1 d2 : R),
    move_point (move_point point angle d1) angle d2
    = move_point point angle (d1 + d2)
    /\ move_point point angle 0 = point.
Proof.
  intros [x y] angle d1 d2. unfold move_point. split; f_equal; ring.
Qed.

(** X6.  The four vertices of a cross-section: two on the ground and two at the
    elevation, the pairs above one another, placed symmetrically about the
    location and [path_width] apart (in absolute value). *)
Theorem cross_section_shape :
  forall config (x y angle elevation : R),
    exists v1 v2 v3 v4,
      _get_vertices_for_point config (x, y) angle elevation = [v1; v2; v3; v4]
      /\ vz v1 = 0 /\ vz v2 = elevation /\ vz v3 = elevation /\ vz v4 = 0
      /\ vxy v1 = vxy v2 /\ vxy v3 = vxy v4
      /\ fst (vxy v1) + fst (vxy v4) = 2 * x
      /\ snd (vxy v1) + snd (vxy v4) = 2 * y
      /\ sqdist (vxy v1) (vxy v4) = path_width config * path_width config.
Proof.
  intros config x y angle elevation. unfold _get_vertices_for_point.
  do 4 eexists. split; [reflexivity|]. simpl.
  repeat split; try ring.
  unfold sqdist. simpl. pose proof (sin2_cos2_mult angle) as H.
  replace ((x + cos angle * (path_width config / 2)
            - (x - cos angle * (path_width config / 2)))
           * (x + cos angle * (path_width config / 2)
              - (x - cos angle * (path_width config / 2)))
           + (y + sin angle * (path_width config / 2) * -1
              - (y - sin angle * (path_width config / 2) * -1))
             * (y + sin angle * (path_width config / 2) * -1
                - (y - sin angle * (path_width config / 2) * -1)))
    with ((sin angle * sin angle + cos angle * cos angle)
          * (path_width config * path_width config)) by field.
  rewrite H. ring.
Qed.

(** X7.  The width of a cross-section lies across the direction in which
    [move_point] moves for the same angle: the two are orthogonal. *)
Theorem cross_section_across_travel :
  forall config (x y angle elevation distance : R) (v : vertex),
    In v (_get_vertices_for_point config (x, y) angle elevation) ->
    let travel := move_point (0, 0) angle distance in
    fst travel * (fst (vxy v) - x) + snd travel * (snd (vxy v) - y) = 0.
Proof.
  intros config x y angle elevation distance v Hin.
  unfold _get_vertices_for_point in Hin. simpl in Hin.
  destruct Hin as [<-|[<-|[<-|[<-|[]]]]]; unfold move_point; simpl; ring.
Qed.

Lemma cross_section_across_travel_witness :
  let travel := move_point (0, 0) 0 3 in
  fst travel * (fst (vxy (1 + cos 0 * (path_width default_config / 2),
                          2 + sin 0 * (path_width default_config / 2) * -1,
                          0)) - 1)
  + snd travel * (snd (vxy (1 + cos 0 * (path_width default_config / 2),
                           2 + sin 0 * (path_width default_config / 2) * -1,
                           0)) - 2) = 0.
Proof.
  apply (@cross_section_across_travel default_config 1 2 0 7 3).
  simpl. left. reflexivity.
Defined.

(** X8.  With an adapter that puts a point at distance 0 from itself, the global
    origin is projected to [(0, 0)]: the cross-section of the first pair of
    the first segment is placed there. *)
Theorem origin_cross_section_at_zero :
  forall geod_inv config (origin next : GPSPoint) (m : R),
    distance_to geod_inv origin origin = 0 ->
    vertices_for_pair geod_inv config origin m (origin, next)
    = _get_vertices_for_point config (0, 0)
        (angle_to geod_inv origin next) (computed_elevation config m origin).
Proof.
  intros geod_inv config origin next m Hzero.
  assert (E : spec_local_xy geod_inv origin origin = (0, 0)).
  { unfold spec_local_xy. unfold distance_to, angle_and_distance_to in Hzero.
    destruct (geod_inv (longitude origin) (latitude origin)
                       (longitude origin) (latitude origin)) as [[b k] d].
    simpl in Hzero. subst d. f_equal; ring. }
  rewrite vertices_for_pair_spec. unfold spec_cross_section.
  cbn [fst snd]. rewrite E. reflexivity.
Qed.

Lemma origin_cross_section_at_zero_witness :
  vertices_for_pair taxicab_inv default_config (pt 0 0 5) 5
    (pt 0 0 5, pt 0 20 7)
  = _get_vertices_for_point default_config (0, 0)
      (angle_to taxicab_inv (pt 0 0 5) (pt 0 20 7))
      (computed_elevation default_config 5 (pt 0 0 5)).
Proof.
  apply (@origin_cross_section_at_zero taxicab_inv default_config).
  apply taxicab_self.
Defined.

(* ================================================================== *)
(** * How [run] assembles the mesh *)

Section Assembly.

Variable geod_inv : R -> R -> R -> R -> R * R * R.
Variable config : GPSTrackConfig.

Lemma segment_vertices_len origin m (segment : GPSTrackSegment) :
  Py.len (segment_vertices geod_inv config origin m segment)
  = (4 * Z.of_nat (cross_section_count geod_inv config segment))%Z.
Proof.
  unfold Py.len, segment_vertices, cross_section_count.
  rewrite vertices_for_segment_length. lia.
Qed.

Lemma emit_offset origin m (segs : list GPSTrackSegment) :
  forall st,
    snd (emit geod_inv config origin m segs st)
    = (snd st
       + 4 * Z.of_nat (list_sum (map (cross_section_count geod_inv config) segs)))%Z.
Proof.
  induction segs as [|s segs IH]; intros st.
  - simpl. lia.
  - cbn [emit]. rewrite IH. cbn [snd map]. unfold list_sum. cbn [fold_right].
    rewrite segment_vertices_len, Nat2Z.inj_add. lia.
Qed.

Lemma emit_polygons origin m (segs : list GPSTrackSegment) :
  forall st,
    _polygons (fst (emit geod_inv config origin m segs st))
    = _polygons (fst st)
      ++ stitched (map (fun s => (4 * Z.of_nat
                                        (cross_section_count geod_inv config s))%Z)
                       segs)
                  (snd st).
Proof.
  induction segs as [|s segs IH]; intros st; simpl.
  - now rewrite app_nil_r.
  - rewrite IH. simpl. rewrite segment_vertices_len, <- app_assoc. reflexivity.
Qed.

Lemma flat_map_length_sum {A B : Type} (f : A -> list B) (l : list A) :
  length (flat_map f l) = list_sum (map (fun a => length (f a)) l).
Proof.
  induction l as [|a l IH]; simpl; [reflexivity|].
  now rewrite length_app, IH.
Qed.

Lemma stitched_length (counts : list nat) :
  forall off,
    length (stitched (map (fun c => (4 * Z.of_nat c)%Z) counts) off)
    = list_sum (map (fun c => (2 + 4 * (c - 2))%nat) counts).
Proof.
  induction counts as [|c counts IH]; intros off; cbn [map stitched].
  - reflexivity.
  - rewrite length_app, polygons_length_cross_sections, IH. reflexivity.
Qed.

Lemma stitched_bounded (counts : list nat) :
  Forall (fun c => (1 <= c)%nat) counts ->
  forall off face k,
    In face (stitched (map (fun c => (4 * Z.of_nat c)%Z) counts) off) ->
    In k face ->
    (off <= k <= off + 4 * Z.of_nat (list_sum counts))%Z.
Proof.
  induction 1 as [|c counts Hc _ IH]; intros off face k Hface Hk.
  - contradiction.
  - cbn [map stitched] in Hface. apply in_app_or in Hface.
    destruct Hface as [Hface|Hface].
    + pose proof (@face_indices_bounded c off k face Hc Hface Hk).
      change (list_sum (c :: counts)) with (c + list_sum counts)%nat. lia.
    + specialize (IH _ _ _ Hface Hk).
      change (list_sum (c :: counts)) with (c + list_sum counts)%nat. lia.
Qed.

Lemma stitched_quads (counts : list Z) :
  forall off face, In face (stitched counts off) -> length face = 4%nat.
Proof.
  induction counts as [|n counts IH]; intros off face Hface;
    cbn [stitched] in Hface.
  - contradiction.
  - apply in_app_or in Hface. destruct Hface as [Hface|Hface]; [|now apply (IH _ _ Hface)].
    apply in_polygons in Hface. destruct Hface as [f [-> Hf]].
    rewrite length_map.
    destruct Hf as [-> | [(i & j & _ & _ & ->) | ->]]; reflexivity.
Qed.

(** The mesh [run] hands to the sink, in terms of the cross-sections of the
    segments. *)
Lemma run_mesh (gps_track : GPSTrack) (obj : ObjFile) :
  run geod_inv config gps_track = Ok obj ->
  length (_vertices obj)
  = (4 * list_sum (map (cross_section_count geod_inv config)
                       (segments gps_track)))%nat
  /\ _polygons obj
     = stitched (map (fun s => (4 * Z.of_nat
                                      (cross_section_count geod_inv config s))%Z)
                     (segments gps_track))
                0.
Proof.
  intros Hrun. pose proof (run_ok_inv _ _ _ Hrun) as Hpre.
  destruct (run_ok geod_inv config Hpre) as (s0 & o & m & _ & _ & _ & Hrun').
  rewrite Hrun' in Hrun. inversion Hrun; subst obj. split.
  - rewrite emit_vertices. simpl. rewrite flat_map_length_sum.
    assert (E : forall segs,
               list_sum (map (fun a => length (segment_vertices geod_inv config o m a)) segs)
               = (4 * list_sum (map (cross_section_count geod_inv config) segs))%nat).
    { induction segs as [|s segs IH]; simpl; [reflexivity|].
      rewrite IH. unfold segment_vertices at 1.
      rewrite vertices_for_segment_length. unfold cross_section_count. lia. }
    apply E.
  - rewrite emit_polygons. reflexivity.
Qed.

End Assembly.

(** X9.  Vertex and face counts of a run: a segment with [c] cross-sections
    (one less than its points after smoothing) contributes [4*c] vertices and
    [2 + 4*(c-2)] faces, the subtraction stopping at 0. *)
Theorem run_vertex_and_face_count :
  forall geod_inv config (gps_track : GPSTrack) (obj : ObjFile),
    run geod_inv config gps_track = Ok obj ->
    length (_vertices obj)
    = (4 * list_sum (map (cross_section_count geod_inv config)
                         (segments gps_track)))%nat
    /\ length (_polygons obj)
       = list_sum (map (fun s => (2 + 4 * (cross_section_count geod_inv config s - 2))%nat)
                       (segments gps_track)).
Proof.
  intros geod_inv config gps_track obj Hrun.
  destruct (run_mesh _ _ _ Hrun) as [Hv Hp]. split; [exact Hv|].
  rewrite Hp.
  rewrite <- (map_map (cross_section_count geod_inv config)
                      (fun c => (4 * Z.of_nat c)%Z)).
  rewrite stitched_length, map_map. reflexivity.
Qed.

Lemma example_cross_sections (config : GPSTrackConfig) :
  smoothing_interval config < 20 ->
  cross_section_count taxicab_inv config {| points := [pt 0 0 5; pt 0 20 7] |}
  = 1%nat.
Proof.
  intros Hd. unfold cross_section_count. now rewrite example_smoothed.
Qed.

Lemma run_vertex_and_face_count_witness :
  length (_vertices (example_obj default_config))
  = (4 * list_sum (map (cross_section_count taxicab_inv default_config)
                       (segments example_track)))%nat
  /\ length (_polygons (example_obj default_config))
     = list_sum (map (fun s => (2 + 4 * (cross_section_count taxicab_inv
                                           default_config s - 2))%nat)
                     (segments example_track)).
Proof.
  apply (@run_vertex_and_face_count taxicab_inv default_config example_track).
  apply run_example. simpl. lra.
Defined.

(** X10.  The faces of each segment are numbered from the count of the vertices of
    the segments before it: the face list of a run is the per-segment face
    lists, stitched with accumulated offsets, starting at 0. *)
Theorem run_offsets_accumulate :
  forall geod_inv config (gps_track : GPSTrack) (obj : ObjFile),
    run geod_inv config gps_track = Ok obj ->
    _polygons obj
    = stitched (map (fun s => (4 * Z.of_nat
                                     (cross_section_count geod_inv config s))%Z)
                    (segments gps_track))
               0.
Proof.
  intros geod_inv config gps_track obj Hrun.
  exact (proj2 (run_mesh _ _ _ Hrun)).
Qed.

Lemma run_offsets_accumulate_witness :
  _polygons (example_obj default_config)
  = stitched (map (fun s => (4 * Z.of_nat
                                   (cross_section_count taxicab_inv
                                      default_config s))%Z)
                  (segments example_track))
             0.
Proof.
  apply (@run_offsets_accumulate taxicab_inv default_config example_track).
  apply run_example. simpl. lra.
Defined.

(** X11.  Every face of a written mesh has four indices. *)
Theorem run_faces_are_quads :
  forall geod_inv config (gps_track : GPSTrack) (obj : ObjFile) (face : list Z),
    run geod_inv config gps_track = Ok obj ->
    In face (_polygons obj) ->
    length face = 4%nat.
Proof.
  intros geod_inv config gps_track obj face Hrun Hface.
  rewrite (proj2 (run_mesh _ _ _ Hrun)) in Hface.
  eapply stitched_quads, Hface.
Qed.

Lemma run_faces_are_quads_witness :
  length [1; 2; 3; 4]%Z = 4%nat.
Proof.
  apply (@run_faces_are_quads taxicab_inv default_config example_track
           (example_obj default_config) [1; 2; 3; 4]%Z).
  - apply run_example. simpl. lra.
  - simpl. left. reflexivity.
Defined.

(** X12.  When every segment keeps at least two points after smoothing, no face
    index of the written mesh is negative or greater than the number of
    vertices. *)
Theorem run_face_indices_bounded :
  forall geod_inv config (gps_track : GPSTrack) (obj : ObjFile)
         (face : list Z) (k : Z),
    Forall (fun s => (1 <= cross_section_count geod_inv config s)%nat)
           (segments gps_track) ->
    run geod_inv config gps_track = Ok obj ->
    In face (_polygons obj) ->
    In k face ->
    (0 <= k <= Z.of_nat (length (_vertices obj)))%Z.
Proof.
  intros geod_inv config gps_track obj face k Hall Hrun Hface Hk.
  destruct (run_mesh _ _ _ Hrun) as [Hv Hp].
  rewrite Hp in Hface.
  rewrite <- (map_map (cross_section_count geod_inv config)
                      (fun c => (4 * Z.of_nat c)%Z)) in Hface.
  assert (Hc : Forall (fun c => (1 <= c)%nat)
                 (map (cross_section_count geod_inv config) (segments gps_track))).
  { apply Forall_map. exact Hall. }
  pose proof (stitched_bounded Hc _ _ _ Hface Hk) as Hb.
  rewrite Hv. lia.
Qed.

Lemma run_face_indices_bounded_witness :
  (0 <= 4 <= Z.of_nat (length (_vertices (example_obj default_config))))%Z.
Proof.
  apply (@run_face_indices_bounded taxicab_inv default_config example_track
           (example_obj default_config) [1; 2; 3; 4]%Z 4%Z).
  - constructor; [|constructor].
    rewrite example_cross_sections; [lia | simpl; lra].
  - apply run_example. simpl. lra.
  - simpl. left. reflexivity.
  - simpl. do 3 right. left. reflexivity.
Defined.

(* ================================================================== *)
(** * Parsing a configuration *)

Lemma set_field_unknown (c : GPSTrackConfig) (k : string) (v : R) :
  is_field k = false -> set_field c (k, v) = Raise TypeError.
Proof.
  unfold is_field, set_field. intros H.
  apply orb_false_elim in H. destruct H as [H H4].
  apply orb_false_elim in H. destruct H as [H H3].
  apply orb_false_elim in H. destruct H as [H1 H2].
  now rewrite H1, H2, H3, H4.
Qed.

Lemma set_field_known (c : GPSTrackConfig) (k : string) (v : R) :
  is_field k = true -> exists c', set_field c (k, v) = Ok c'.
Proof.
  unfold is_field, set_field. intros H.
  destruct (String.eqb k "elevation_multiplier"); [eexists; reflexivity|].
  destruct (String.eqb k "smoothing_interval"); [eexists; reflexivity|].
  destruct (String.eqb k "base_height"); [eexists; reflexivity|].
  destruct (String.eqb k "path_width"); [eexists; reflexivity|].
  discriminate.
Qed.

Lemma foldM_set_field_ok (kvs : list (string * R)) :
  forall c0,
    Forall (fun kv => is_field (fst kv) = true) kvs ->
    exists c, foldM set_field kvs c0 = Ok c.
Proof.
  induction kvs as [|[k v] kvs IH]; intros c0 Hall; cbn [foldM].
  - now exists c0.
  - inversion Hall as [|? ? Hk Hrest]; subst. simpl in Hk.
    destruct (set_field_known c0 k v Hk) as [c' Hc']. rewrite Hc'. cbn [bind].
    now apply IH.
Qed.

Lemma foldM_set_field_unknown (kvs : list (string * R)) :
  forall c0,
    Exists (fun kv => is_field (fst kv) = false) kvs ->
    foldM set_field kvs c0 = Raise TypeError.
Proof.
  induction kvs as [|[k v] kvs IH]; intros c0 Hex; cbn [foldM].
  - inversion Hex.
  - destruct (is_field k) eqn:Hk.
    + destruct (set_field_known c0 k v Hk) as [c' Hc']. rewrite Hc'. cbn [bind].
      apply IH. inversion Hex as [? ? Hbad|? ? Hrest]; subst.
      * simpl in Hbad. congruence.
      * exact Hrest.
    + now rewrite set_field_unknown.
Qed.

Lemma fields_or_unknown (kvs : list (string * R)) :
  Forall (fun kv => is_field (fst kv) = true) kvs
  \/ Exists (fun kv => is_field (fst kv) = false) kvs.
Proof.
  induction kvs as [|[k v] kvs [IH|IH]].
  - left. constructor.
  - destruct (is_field k) eqn:Hk.
    + left. constructor; assumption.
    + right. left. exact Hk.
  - right. right. exact IH.
Qed.

(** X14.  Parsing returns exactly when every key is one of the four field names;
    a single other key, wherever it stands, makes it raise [TypeError]. *)
Theorem parse_config_rejects_exactly_unknown_keys :
  forall kvs : list (string * R),
    ((exists c, parse_gps_track_config kvs = Ok c)
     <-> Forall (fun kv => is_field (fst kv) = true) kvs)
    /\ (parse_gps_track_config kvs = Raise TypeError
        <-> Exists (fun kv => is_field (fst kv) = false) kvs).
Proof.
  intros kvs. unfold parse_gps_track_config.
  destruct (fields_or_unknown kvs) as [Hall|Hex].
  - destruct (foldM_set_field_ok default_config Hall) as [c Hc]. split.
    + split; [intros _; exact Hall | intros _; now exists c].
    + split; [rewrite Hc; discriminate|].
      intros Hbad. exfalso. apply Exists_exists in Hbad.
      destruct Hbad as [kv [Hin Hkv]].
      rewrite Forall_forall in Hall. rewrite (Hall kv Hin) in Hkv. discriminate.
  - pose proof (foldM_set_field_unknown default_config Hex) as Hr. split.
    + split; [intros [c Hc]; rewrite Hr in Hc; discriminate|].
      intros Hall. exfalso. apply Exists_exists in Hex.
      destruct Hex as [kv [Hin Hkv]].
      rewrite Forall_forall in Hall. rewrite (Hall kv Hin) in Hkv. discriminate.
    + split; [intros _; exact Hex | intros _; exact Hr].
Qed.

(** Each step of parsing changes the field its key names and no other. *)
Lemma set_field_reads (c c' : GPSTrackConfig) (k : string) (v : R) :
  set_field c (k, v) = Ok c' ->
  elevation_multiplier c'
  = (if String.eqb k "elevation_multiplier" then v else elevation_multiplier c)
  /\ smoothing_interval c'
     = (if String.eqb k "smoothing_interval" then v else smoothing_interval c)
  /\ base_height c'
     = (if String.eqb k "base_height" then v else base_height c)
  /\ path_width c'
     = (if String.eqb k "path_width" then v else path_width c).
Proof.
  unfold set_field.
  destruct (String.eqb_spec k "elevation_multiplier") as [->|_].
  { intros H; inversion H; subst; simpl. repeat split. }
  destruct (String.eqb_spec k "smoothing_interval") as [->|_].
  { intros H; inversion H; subst; simpl. repeat split. }
  destruct (String.eqb_spec k "base_height") as [->|_].
  { intros H; inversion H; subst; simpl. repeat split. }
  destruct (String.eqb_spec k "path_width") as [->|_].
  { intros H; inversion H; subst; simpl. repeat split. }
  discriminate.
Qed.

Lemma last_value_cons (key k : string) (v d : R) (kvs : list (string * R)) :
  or_default (last_value key ((k, v) :: kvs)) d
  = or_default (last_value key kvs) (if String.eqb k key then v else d).
Proof.
  simpl. destruct (last_value key kvs); simpl; [reflexivity|].
  destruct (String.eqb k key); reflexivity.
Qed.

Lemma foldM_set_field_reads (kvs : list (string * R)) :
  forall c0 c,
    foldM set_field kvs c0 = Ok c ->
    elevation_multiplier c
    = or_default (last_value "elevation_multiplier" kvs) (elevation_multiplier c0)
    /\ smoothing_interval c
       = or_default (last_value "smoothing_interval" kvs) (smoothing_interval c0)
    /\ base_height c
       = or_default (last_value "base_height" kvs) (base_height c0)
    /\ path_width c
       = or_default (last_value "path_width" kvs) (path_width c0).
Proof.
  induction kvs as [|[k v] kvs IH]; intros c0 c H.
  - simpl in H. inversion H; subst. simpl. repeat split.
  - cbn [foldM] in H. destruct (set_field c0 (k, v)) as [c1|e] eqn:E1;
      simpl in H; [|discriminate].
    destruct (set_field_reads _ _ _ E1) as (R1 & R2 & R3 & R4).
    destruct (IH _ _ H) as (I1 & I2 & I3 & I4).
    rewrite !last_value_cons, <- R1, <- R2, <- R3, <- R4.
    repeat split; assumption.
Qed.

(** X15.  A parsed configuration holds, for each field, the last value the
    object gives to its name, and the default (1, 10, 1, 5) when the name is
    absent. *)
Theorem parse_config_last_value_or_default :
  forall (kvs : list (string * R)) (c : GPSTrackConfig),
    parse_gps_track_config kvs = Ok c ->
    elevation_multiplier c
    = or_default (last_value "elevation_multiplier" kvs) 1
    /\ smoothing_interval c
       = or_default (last_value "smoothing_interval" kvs) 10
    /\ base_height c = or_default (last_value "base_height" kvs) 1
    /\ path_width c = or_default (last_value "path_width" kvs) 5.
Proof.
  intros kvs c H. exact (foldM_set_field_reads _ _ H).
Qed.

Lemma parse_config_last_value_or_default_witness :
  elevation_multiplier
    {| elevation_multiplier := 1; smoothing_interval := 3;
       base_height := 1; path_width := 4 |}
  = or_default (last_value "elevation_multiplier"
                  [("path_width"%string, 2); ("smoothing_interval"%string, 3);
                   ("path_width"%string, 4)]) 1
  /\ smoothing_interval
       {| elevation_multiplier := 1; smoothing_interval := 3;
          base_height := 1; path_width := 4 |}
     = or_default (last_value "smoothing_interval"
                     [("path_width"%string, 2); ("smoothing_interval"%string, 3);
                      ("path_width"%string, 4)]) 10
  /\ base_height
       {| elevation_multiplier := 1; smoothing_interval := 3;
          base_height := 1; path_width := 4 |}
     = or_default (last_value "base_height"
                     [("path_width"%string, 2); ("smoothing_interval"%string, 3);
                      ("path_width"%string, 4)]) 1
  /\ path_width
       {| elevation_multiplier := 1; smoothing_interval := 3;
          base_height := 1; path_width := 4 |}
     = or_default (last_value "path_width"
                     [("path_width"%string, 2); ("smoothing_interval"%string, 3);
                      ("path_width"%string, 4)]) 5.
Proof.
  apply (@parse_config_last_value_or_default
           [("path_width"%string, 2); ("smoothing_interval"%string, 3);
            ("path_width"%string, 4)]).
  reflexivity.
Defined.

(* ================================================================== *)
(** * Minimum elevation and length *)

(** X16.  [GPSTrackSegment.min_elevation] returns the elevation of a point of the
    segment that no point of the segment is below; it raises [ValueError]
    exactly on a segment with no point. *)
Theorem segment_min_elevation_outcome :
  forall segment : GPSTrackSegment,
    match GPSTrackSegment_min_elevation segment with
    | Ok m => (exists p, In p (points segment) /\ elevation p = m)
              /\ (forall p, In p (points segment) -> m <= elevation p)
    | Raise e => e = ValueError /\ points segment = []
    end.
Proof.
  intros segment.
  destruct (GPSTrackSegment_min_elevation segment) as [m|e] eqn:E.
  - unfold GPSTrackSegment_min_elevation in E. apply py_min_spec in E.
    destruct E as [Hin Hlow]. split.
    + apply in_map_iff in Hin. destruct Hin as [p [Hp Hin]]. now exists p.
    + intros p Hp. apply Hlow. now apply in_map.
  - split; [exact (segment_min_only_value_error _ E)|].
    destruct (points segment) as [|p ps] eqn:Hp; [reflexivity|].
    unfold GPSTrackSegment_min_elevation in E. rewrite Hp in E. discriminate.
Qed.

Lemma segments_all_nonempty_or_not (segs : list GPSTrackSegment) :
  Forall (fun segment => points segment <> []) segs
  \/ Exists (fun segment => points segment = []) segs.
Proof.
  induction segs as [|s segs [IH|IH]].
  - left. constructor.
  - destruct (points s) as [|p ps] eqn:Hp.
    + right. left. exact Hp.
    + left. constructor; [rewrite Hp; discriminate | exact IH].
  - right. right. exact IH.
Qed.

(** X17.  [GPSTrack.min_elevation] raises exactly when the track has no segment or
    has a segment with no point, and then it raises [ValueError]. *)
Theorem track_min_elevation_raises_exactly :
  forall gps_track : GPSTrack,
    ((exists m, GPSTrack_min_elevation gps_track = Ok m)
     <-> no_empty_segment gps_track)
    /\ (GPSTrack_min_elevation gps_track = Raise ValueError
        <-> ~ no_empty_segment gps_track)
    /\ (forall e, GPSTrack_min_elevation gps_track = Raise e -> e = ValueError).
Proof.
  intros gps_track.
  assert (Hcases : no_empty_segment gps_track
                   \/ GPSTrack_min_elevation gps_track = Raise ValueError
                      /\ ~ no_empty_segment gps_track).
  { unfold no_empty_segment.
    destruct (segments gps_track) as [|s segs] eqn:Hsegs.
    - right. split.
      + unfold GPSTrack_min_elevation. now rewrite Hsegs.
      + intros [Hne _]. congruence.
    - destruct (segments_all_nonempty_or_not (s :: segs)) as [Hall|Hex].
      + left. split; [discriminate | exact Hall].
      + right. split.
        * apply track_min_empty_segment. now rewrite Hsegs.
        * intros [_ Hall]. apply Exists_exists in Hex.
          destruct Hex as [x [Hin Hx]]. rewrite Forall_forall in Hall.
          exact (Hall x Hin Hx). }
  destruct Hcases as [Hpre|[Hraise Hnot]].
  - destruct (track_min_ok Hpre) as [m Hm]. split; [|split].
    + split; [intros _; exact Hpre | intros _; now exists m].
    + split; [rewrite Hm; discriminate | intros Hn; contradiction].
    + intros e He. rewrite Hm in He. discriminate.
  - split; [|split].
    + split; [intros [m Hm]; rewrite Hraise in Hm; discriminate
             | intros Hpre; contradiction].
    + split; [intros _; exact Hnot | intros _; exact Hraise].
    + intros e He. rewrite Hraise in He. now inversion He.
Qed.

(** X18.  [len(gps_track)] is the number of points of all segments together; it
    is 0 exactly when every segment is empty (in particular when there is no
    segment). *)
Theorem track_len_counts_all_points :
  forall gps_track : GPSTrack,
    GPSTrack_len gps_track = Z.of_nat (length (all_points gps_track))
    /\ (GPSTrack_len gps_track = 0%Z
        <-> Forall (fun segment => points segment = []) (segments gps_track)).
Proof.
  intros gps_track. split; [apply track_len_all_points|].
  rewrite track_len_all_points. unfold Py.len, all_points.
  induction (segments gps_track) as [|s segs IH]; simpl.
  - split; [constructor | reflexivity].
  - rewrite length_app. split.
    + intros H. assert (Hs : points s = []).
      { destruct (points s); [reflexivity | simpl in H; lia]. }
      constructor; [exact Hs|]. apply IH. rewrite Hs in H. simpl in H. exact H.
    + intros H. inversion H as [|? ? Hs Hrest]; subst.
      rewrite Hs. simpl. now apply IH.
Qed.

(* ================================================================== *)
(** * Reading a FIT file *)


Lemma from_fit_fold (records : list FitRecord) :
  forall acc,
    fold_left (fun pts record =>
                 match fit_point record with
                 | Some point => pts ++ [point]
                 | None => pts
                 end) records acc
    = acc ++ flat_map fit_points records.
Proof.
  induction records as [|r records IH]; intros acc; simpl.
  - now rewrite app_nil_r.
  - rewrite IH. unfold fit_points at 2.
    destruct (fit_point r); simpl; [now rewrite <- app_assoc | reflexivity].
Qed.

Lemma from_fit_points (records : list FitRecord) :
  from_fit records
  = {| segments := [ {| points := flat_map fit_points records |} ] |}.
Proof. unfold from_fit. now rewrite from_fit_fold. Qed.

Lemma fit_incomplete_none (record : FitRecord) :
  fit_incomplete record -> fit_point record = None.
Proof.
  unfold fit_incomplete, fit_point.
  intros [H|[H|[H|[elev [H Hu]]]]].
  - now rewrite H.
  - rewrite H. now destruct (position_lat record).
  - rewrite H. destruct (position_lat record); now destruct (position_long record).
  - rewrite H. destruct (position_lat record); [|reflexivity].
    destruct (position_long record); [|reflexivity].
    destruct (units elev) as [u|]; [|reflexivity].
    destruct (String.eqb_spec u "m") as [->|_]; [congruence | reflexivity].
Qed.

(** X19.  A record that lacks a position or the altitude, or whose altitude is
    not in meters, leaves no trace in the track, wherever it stands. *)
Theorem from_fit_ignores_incomplete_record :
  forall (before after : list FitRecord) (record : FitRecord),
    fit_incomplete record ->
    from_fit (before ++ record :: after) = from_fit (before ++ after).
Proof.
  intros before after record Hinc.
  rewrite !from_fit_points, !flat_map_app. simpl.
  unfold fit_points at 2. now rewrite (fit_incomplete_none Hinc).
Qed.

Lemma from_fit_ignores_incomplete_record_witness :
  from_fit ([] ++ {| position_lat := Some 5%Z; position_long := None;
                     enhanced_altitude := None |} :: [])
  = from_fit ([] ++ []).
Proof.
  apply (@from_fit_ignores_incomplete_record [] []).
  right. left. reflexivity.
Defined.

(** X20.  [from_fit] always builds a track of exactly one segment, with at most
    one point per record, so a file without a complete record gives a track
    of length 0. *)
Theorem from_fit_single_segment :
  forall records : list FitRecord,
    exists segment,
      segments (from_fit records) = [segment]
      /\ (length (points segment) <= length records)%nat
      /\ ((forall record, In record records -> fit_incomplete record) ->
          GPSTrack_len (from_fit records) = 0%Z).
Proof.
  intros records. rewrite from_fit_points. eexists. split; [reflexivity|].
  simpl. split.
  - induction records as [|r records IH]; simpl; [lia|].
    rewrite length_app. unfold fit_points at 1.
    destruct (fit_point r); simpl; lia.
  - intros Hall.
    assert (E : flat_map fit_points records = []).
    { induction records as [|r records IH]; simpl; [reflexivity|].
      unfold fit_points at 1.
      rewrite (fit_incomplete_none (Hall r (or_introl eq_refl))). simpl.
      apply IH. intros r' Hr'. apply Hall. now right. }
    unfold GPSTrack_len, GPSTrackSegment_len, Py.len. simpl. now rewrite E.
Qed.

Lemma pow2_31 : 2 ^ 31 = 2147483648.
Proof. simpl. lra. Qed.

Lemma semicircles_in_degrees (v : Z) :
  int32 v -> -180 <= semicircles_to_degrees v < 180.
Proof.
  unfold int32, semicircles_to_degrees. intros [Hlo Hhi].
  change (- 2 ^ 31)%Z with (-2147483648)%Z in Hlo.
  change (2 ^ 31)%Z with 2147483648%Z in Hhi.
  apply IZR_le in Hlo. apply IZR_lt in Hhi. rewrite pow2_31.
  split; lra.
Qed.

(** X21.  With positions that are signed 32-bit integers, every point read from a
    FIT file has latitude and longitude in [-180, 180) degrees. *)
Theorem from_fit_degrees_in_range :
  forall (records : list FitRecord) (p : GPSPoint),
    (forall record v, In record records ->
                      position_lat record = Some v
                      \/ position_long record = Some v -> int32 v) ->
    In p (all_points (from_fit records)) ->
    (-180 <= latitude p < 180) /\ (-180 <= longitude p < 180).
Proof.
  intros records p Hrange Hp. rewrite from_fit_points in Hp.
  unfold all_points in Hp. simpl in Hp. rewrite app_nil_r in Hp.
  apply in_flat_map in Hp. destruct Hp as [r [Hr Hp]].
  unfold fit_points, fit_point in Hp.
  destruct (position_lat r) as [lat|] eqn:Hlat; [|contradiction].
  destruct (position_long r) as [long|] eqn:Hlong; [|contradiction].
  destruct (enhanced_altitude r) as [elev|]; [|contradiction].
  destruct (units elev) as [u|]; [|contradiction].
  destruct (String.eqb u "m"); [|contradiction].
  destruct Hp as [<-|[]]. simpl. split.
  - apply semicircles_in_degrees. apply (Hrange r lat Hr). now left.
  - apply semicircles_in_degrees. apply (Hrange r long Hr). now right.
Qed.

Lemma from_fit_degrees_in_range_witness :
  (-180 <= latitude (pt (semicircles_to_degrees 1073741824)
                        (semicircles_to_degrees (-2147483648)) 12) < 180)
  /\ (-180 <= longitude (pt (semicircles_to_degrees 1073741824)
                            (semicircles_to_degrees (-2147483648)) 12) < 180).
Proof.
  apply (@from_fit_degrees_in_range
           [ {| position_lat := Some 1073741824%Z;
                position_long := Some (-2147483648)%Z;
                enhanced_altitude := Some {| units := Some "m"%string;
                                             value := 12 |} |} ]).
  - intros record v [<-|[]] [H|H]; simpl in H; inversion H; subst;
      unfold int32; lia.
  - simpl. left. reflexivity.
Defined.

(* ================================================================== *)
(** * Choosing the parser by extension *)

Lemma string_length_append (s t : string) :
  String.length (String.append s t) = (String.length s + String.length t)%nat.
Proof. induction s as [|c s IH]; simpl; [reflexivity | now rewrite IH]. Qed.

Lemma substring_whole (t : string) : substring 0 (String.length t) t = t.
Proof. induction t as [|c t IH]; simpl; [reflexivity | now rewrite IH]. Qed.

Lemma substring_suffix (s t : string) :
  substring (String.length s) (String.length t) (String.append s t) = t.
Proof. induction s as [|c s IH]; simpl; [apply substring_whole | exact IH]. Qed.

Lemma endswith_same_length (stem suffix x : string) :
  String.length suffix = String.length x ->
  endswith (String.append stem suffix) x = String.eqb suffix x.
Proof.
  intros Hlen. unfold endswith. rewrite string_length_append, <- Hlen.
  replace (String.length suffix <=? String.length stem + String.length suffix)%nat
    with true by (symmetry; apply Nat.leb_le; lia).
  replace (String.length stem + String.length suffix - String.length suffix)%nat
    with (String.length stem) by lia.
  now rewrite substring_suffix.
Qed.

(** X23.  For a path that ends in four characters [ext], [from_file] hands the
    path to the GPX parser when [ext] is [".gpx"], to the FIT parser when it
    is [".fit"], and raises [ValueError] for any other [ext], upper-case
    spellings included. *)
Theorem from_file_dispatches_on_extension :
  forall (from_gpx_file from_fit_file : string -> result GPSTrack)
         (stem ext : string),
    String.length ext = 4%nat ->
    from_file from_gpx_file from_fit_file (String.append stem ext)
    = if String.eqb ext ".gpx" then from_gpx_file (String.append stem ext)
      else if String.eqb ext ".fit" then from_fit_file (String.append stem ext)
           else Raise ValueError.
Proof.
  intros g f stem ext Hlen. unfold from_file.
  rewrite !endswith_same_length by (rewrite Hlen; reflexivity).
  reflexivity.
Qed.

Lemma from_file_dispatches_on_extension_witness :
  from_file (fun _ => Ok (track_of [])) (fun _ => Raise IndexError)
            (String.append "ride" ".GPX")
  = if String.eqb ".GPX" ".gpx"
    then (fun _ => Ok (track_of [])) (String.append "ride" ".GPX")
    else if String.eqb ".GPX" ".fit"
         then (fun _ : string => Raise IndexError) (String.append "ride" ".GPX")
         else Raise ValueError.
Proof.
  apply (@from_file_dispatches_on_extension
           (fun _ => Ok (track_of [])) (fun _ => Raise IndexError)
           "ride" ".GPX").
  reflexivity.
Defined.

(** A path of fewer than four characters has no extension [from_file]
    accepts. *)
Theorem from_file_short_path_raises :
  forall (from_gpx_file from_fit_file : string -> result GPSTrack)
         (file_path : string),
    (String.length file_path < 4)%nat ->
    from_file from_gpx_file from_fit_file file_path = Raise ValueError.
Proof.
  intros g f file_path Hlen. unfold from_file, endswith. simpl String.length.
  replace (4 <=? String.length file_path)%nat with false
    by (symmetry; apply Nat.leb_gt; exact Hlen).
  reflexivity.
Qed.

Lemma from_file_short_path_raises_witness :
  from_file (fun _ => Ok (track_of [])) (fun _ => Ok (track_of [])) "gpx"
  = Raise ValueError.
Proof.
  apply (@from_file_short_path_raises
           (fun _ => Ok (track_of [])) (fun _ => Ok (track_of [])) "gpx").
  simpl. lia.
Defined.

(* ================================================================== *)
(** * The earlier converter against the current one *)

Lemma map_flat_map {A B C : Type} (g : B -> C) (f : A -> list B) (l : list A) :
  map g (flat_map f l) = flat_map (fun a => map g (f a)) l.
Proof.
  induction l as [|a l IH]; simpl; [reflexivity|].
  now rewrite map_app, IH.
Qed.

Lemma map_add_zero (l : list Z) : map (fun i => (i + 0)%Z) l = l.
Proof.
  induction l as [|x l IH]; simpl; [reflexivity|].
  now rewrite IH, Z.add_0_r.
Qed.

Lemma earlier_polygons_eq (vertex_count : Z) :
  map GpxToObj.tuple_to_list (GpxToObj._get_polygons_for_vertices vertex_count)
  = _get_polygons_for_vertices vertex_count 0.
Proof.
  unfold GpxToObj._get_polygons_for_vertices, _get_polygons_for_vertices.
  rewrite (map_ext _ (fun l => l) map_add_zero), map_id.
  rewrite !map_app, map_flat_map. reflexivity.
Qed.

(** X24.  The earlier indexer emits the faces the current one emits for a first
    segment (offset 0): the stitching rule was carried over unchanged. *)
Theorem earlier_polygons_are_offset_zero :
  forall vertex_count : Z,
    map GpxToObj.tuple_to_list (GpxToObj._get_polygons_for_vertices vertex_count)
    = _get_polygons_for_vertices vertex_count 0.
Proof. exact earlier_polygons_eq. Qed.

Section Earlier.

Variable geod_inv : R -> R -> R -> R -> R * R * R.
Variable config : GPSTrackConfig.

Lemma earlier_track_points_cons (p0 p1 : GPSPoint) (rest : list GPSPoint) :
  GpxToObj._get_track_points geod_inv config [[p0 :: p1 :: rest]]
  = Ok (p0 :: keep_after (distance_to geod_inv) (smoothing_interval config)
                         p0 (p1 :: rest)).
Proof.
  unfold GpxToObj._get_track_points. cbn [length Nat.eqb Nat.ltb Nat.leb negb
    Py.first bind tl].
  change (fun pts p =>
            let '(_, distance) :=
              GpxToObj.get_angle_and_distance geod_inv (last pts p0) p in
            if Rgt_dec distance (smoothing_interval config)
            then pts ++ [p] else pts)
    with (smoothing_step geod_inv (smoothing_interval config) p0).
  change [p0] with ([] ++ [p0]). rewrite smoothing_fold. reflexivity.
Qed.

Lemma convert_fold_length (m : R) (pairs : list (GPSPoint * GPSPoint)) :
  forall st,
    length (snd (fold_left (GpxToObj.convert_step geod_inv config m) pairs st))
    = (length (snd st) + 4 * length pairs)%nat.
Proof.
  induction pairs as [|[fp tp] pairs IH]; intros [loc vs]; cbn [fold_left].
  - simpl. lia.
  - rewrite IH. unfold GpxToObj.convert_step.
    destruct (GpxToObj.get_angle_and_distance geod_inv fp tp) as [a d].
    cbn [snd]. rewrite length_app.
    unfold _get_vertices_for_point. destruct loc as [x y].
    cbn [length]. lia.
Qed.

End Earlier.

(** X25.  [_get_track_points] returns only for a GPX object with exactly one track
    of exactly one segment with at least two points, and then returns what
    the current smoothing filter returns for that segment; in every other
    case it raises [ValueError]. *)
Theorem earlier_track_points_outcome :
  forall geod_inv config (gpx_obj : GpxToObj.GPX),
    match GpxToObj._get_track_points geod_inv config gpx_obj with
    | Ok pts =>
        exists segment,
          gpx_obj = [[segment]] /\ (2 <= length segment)%nat
          /\ filter_by_smoothing_interval geod_inv {| points := segment |}
               (smoothing_interval config) = Ok {| points := pts |}
    | Raise e =>
        e = ValueError
        /\ forall segment, gpx_obj = [[segment]] -> (length segment < 2)%nat
    end.
Proof.
  intros geod_inv config gpx_obj.
  destruct gpx_obj as [|track [|track' tracks]].
  - simpl. split; [reflexivity | discriminate].
  - destruct track as [|segment [|segment' segs]].
    + simpl. split; [reflexivity | discriminate].
    + destruct segment as [|p0 [|p1 rest]].
      * simpl. split; [reflexivity|]. intros s E. inversion E. simpl. lia.
      * simpl. split; [reflexivity|]. intros s E. inversion E. simpl. lia.
      * rewrite earlier_track_points_cons. exists (p0 :: p1 :: rest).
        split; [reflexivity|]. split; [simpl; lia|]. apply filter_cons.
    + simpl. split; [reflexivity | discriminate].
  - simpl. split; [reflexivity | discriminate].
Qed.

(** X26.  The check for two points comes before smoothing: when no later point is
    farther than the smoothing interval from the first, the earlier converter
    still writes a file, with no vertex and the faces [(1, 2, 3, 4)] and
    [(-3, -2, -1, 0)]. *)
Theorem earlier_converter_degenerate_after_smoothing :
  forall geod_inv config (p0 p1 : GPSPoint) (rest : list GPSPoint),
    (forall p, In p (p1 :: rest) ->
               distance_to geod_inv p0 p <= smoothing_interval config) ->
    GpxToObj._convert_gpx_to_obj geod_inv config [[p0 :: p1 :: rest]]
    = Ok ([], [(1, 2, 3, 4); (-3, -2, -1, 0)]%Z).
Proof.
  intros geod_inv config p0 p1 rest Hnear.
  unfold GpxToObj._convert_gpx_to_obj.
  rewrite earlier_track_points_cons, keep_after_none by exact Hnear.
  reflexivity.
Qed.

Lemma earlier_converter_degenerate_after_smoothing_witness :
  GpxToObj._convert_gpx_to_obj taxicab_inv default_config
    [[pt 0 0 5 :: pt 0 0 5 :: []]]
  = Ok ([], [(1, 2, 3, 4); (-3, -2, -1, 0)]%Z).
Proof.
  apply (@earlier_converter_degenerate_after_smoothing taxicab_inv default_config).
  intros p [<-|[]]. rewrite taxicab_self. simpl. lra.
Defined.

(** X27.  When the earlier converter returns, it has emitted four vertices per
    pair of consecutive points kept by smoothing, and the two caps plus four
    faces per cross-section beyond the second. *)
Theorem earlier_converter_counts :
  forall geod_inv config (gpx_obj : GpxToObj.GPX)
         (vertices : list vertex) (polygons : list (Z * Z * Z * Z)),
    GpxToObj._convert_gpx_to_obj geod_inv config gpx_obj = Ok (vertices, polygons) ->
    exists pts,
      GpxToObj._get_track_points geod_inv config gpx_obj = Ok pts
      /\ length vertices = (4 * (length pts - 1))%nat
      /\ length polygons = (2 + 4 * (length pts - 3))%nat.
Proof.
  intros geod_inv config gpx_obj vertices polygons H.
  unfold GpxToObj._convert_gpx_to_obj in H.
  destruct (GpxToObj._get_track_points geod_inv config gpx_obj) as [pts|e];
    simpl in H; [|discriminate].
  destruct (Py.min (map elevation pts)) as [m|e]; simpl in H; [|discriminate].
  pose proof (convert_fold_length geod_inv config m (Py.pairwise pts) (0, 0, []))
    as Hlen.
  destruct (fold_left (GpxToObj.convert_step geod_inv config m)
                      (Py.pairwise pts) (0, 0, [])) as [loc vs].
  inversion H; subst vertices polygons; clear H.
  cbn [snd length] in Hlen. rewrite Nat.add_0_l, pairwise_length in Hlen.
  exists pts. split; [reflexivity|]. split; [exact Hlen|].
  rewrite <- (length_map GpxToObj.tuple_to_list), earlier_polygons_eq.
  unfold Py.len. rewrite Hlen, Nat2Z.inj_mul.
  change (Z.of_nat 4) with 4%Z.
  rewrite polygons_length_cross_sections. lia.
Qed.

Lemma earlier_converter_counts_witness :
  exists pts,
    GpxToObj._get_track_points taxicab_inv default_config
      [[pt 0 0 5 :: pt 0 0 5 :: []]] = Ok pts
    /\ length (@nil vertex) = (4 * (length pts - 1))%nat
    /\ length [(1, 2, 3, 4); (-3, -2, -1, 0)]%Z = (2 + 4 * (length pts - 3))%nat.
Proof.
  apply (@earlier_converter_counts taxicab_inv default_config
           [[pt 0 0 5 :: pt 0 0 5 :: []]]).
  unfold GpxToObj._convert_gpx_to_obj.
  rewrite earlier_track_points_cons, keep_after_none; [reflexivity|].
  intros p [<-|[]]. rewrite taxicab_self. simpl. lra.
Defined.

(** X13.  For a segment with at least one cross-section, every vertex index
    of the segment's own range appears in some emitted face. *)
Theorem indexer_covers_every_vertex :
  forall (c : nat) (segment_offset k : Z),
    (1 <= c)%nat ->
    in_segment_range segment_offset (4 * Z.of_nat c) k ->
    exists face,
      In face (_get_polygons_for_vertices (4 * Z.of_nat c) segment_offset)
      /\ In k face.
Proof. intros c segment_offset k. apply every_vertex_on_a_face. Qed.

Lemma indexer_covers_every_vertex_witness :
  exists face,
    In face (_get_polygons_for_vertices (4 * Z.of_nat 3) 0) /\ In 7%Z face.
Proof.
  apply (@indexer_covers_every_vertex 3 0 7).
  - lia.
  - unfold in_segment_range. lia.
Defined.

(* ================================================================== *)
(** * Configuration values and the elevation datum, revisited *)


(** *** Computed elevations of the emitted vertices *)

Lemma heights_cross_section geod_inv config origin m pr (rest : list vertex) :
  elevated_heights (spec_cross_section geod_inv config origin m pr ++ rest)
  = computed_elevation config m (fst pr) :: elevated_heights rest.
Proof.
  unfold spec_cross_section, _get_vertices_for_point.
  destruct (spec_local_xy geod_inv origin (fst pr)) as [x y]. reflexivity.
Qed.

Lemma heights_cross_sections geod_inv config origin m
      (pairs : list (GPSPoint * GPSPoint)) (rest : list vertex) :
  elevated_heights
    (flat_map (spec_cross_section geod_inv config origin m) pairs ++ rest)
  = map (computed_elevation config m) (map fst pairs) ++ elevated_heights rest.
Proof.
  induction pairs as [|pr pairs IH]; cbn [flat_map map app].
  - reflexivity.
  - rewrite <- app_assoc, heights_cross_section, IH. reflexivity.
Qed.

Lemma heights_segments geod_inv config origin m (segs : list GPSTrackSegment) :
  elevated_heights (flat_map (segment_vertices geod_inv config origin m) segs)
  = map (computed_elevation config m)
        (flat_map (fun segment =>
                     from_points (smoothed geod_inv (smoothing_interval config)
                                           segment))
                  segs).
Proof.
  induction segs as [|s segs IH]; cbn [flat_map].
  - reflexivity.
  - rewrite segment_vertices_spec, heights_cross_sections, IH, map_app.
    reflexivity.
Qed.

(** The computed elevations carried by the vertices of a run are those of
    the points that received a cross-section, in order. *)
Lemma run_heights geod_inv config (gps_track : GPSTrack) (obj : ObjFile) (m : R) :
  run geod_inv config gps_track = Ok obj ->
  GPSTrack_min_elevation gps_track = Ok m ->
  elevated_heights (_vertices obj)
  = map (computed_elevation config m)
        (cross_section_points geod_inv config gps_track).
Proof.
  intros Hrun Hm.
  destruct (run_vertices _ _ _ Hrun) as (s0 & origin & m' & _ & _ & Hm' & Hvs).
  rewrite Hm in Hm'. inversion Hm'; subst m'.
  rewrite Hvs. apply heights_segments.
Qed.

(** *** A two-point track of any elevations *)

Lemma taxicab_twenty (e1 e2 : R) :
  distance_to taxicab_inv (pt 0 0 e1) (pt 0 20 e2) = 20.
Proof.
  rewrite taxicab_distance. simpl.
  unfold Rabs. repeat destruct Rcase_abs; lra.
Qed.

Lemma run_two_points (config : GPSTrackConfig) (e1 e2 : R) :
  smoothing_interval config < 20 ->
  cross_section_points taxicab_inv config
    (track_of [[pt 0 0 e1; pt 0 20 e2]]) = [pt 0 0 e1]
  /\ GPSTrack_min_elevation (track_of [[pt 0 0 e1; pt 0 20 e2]])
     = Ok (Rmin e1 e2)
  /\ run taxicab_inv config (track_of [[pt 0 0 e1; pt 0 20 e2]])
     = Ok {| _vertices := spec_cross_section taxicab_inv config (pt 0 0 e1)
                            (Rmin e1 e2) (pt 0 0 e1, pt 0 20 e2);
             _polygons := [[1; 2; 3; 4]; [1; 2; 3; 4]]%Z |}.
Proof.
  intros Hd.
  assert (Hkeep : smoothed taxicab_inv (smoothing_interval config)
                    {| points := [pt 0 0 e1; pt 0 20 e2] |}
                  = {| points := [pt 0 0 e1; pt 0 20 e2] |}).
  { unfold smoothed. simpl.
    destruct (Rgt_dec (distance_to taxicab_inv (pt 0 0 e1) (pt 0 20 e2))
                      (smoothing_interval config)) as [H|H].
    - reflexivity.
    - rewrite taxicab_twenty in H. lra. }
  assert (Hpre : no_empty_segment (track_of [[pt 0 0 e1; pt 0 20 e2]])).
  { split; simpl; [discriminate|].
    constructor; [simpl; discriminate | constructor]. }
  split; [|split].
  - unfold cross_section_points. simpl. rewrite Hkeep. reflexivity.
  - reflexivity.
  - destruct (run_ok taxicab_inv config Hpre)
      as (s0 & o & m & Hs0 & Ho & Hm & Hrun).
    simpl in Hs0. inversion Hs0; subst s0.
    simpl in Ho. inversion Ho; subst o.
    change (GPSTrack_min_elevation (track_of [[pt 0 0 e1; pt 0 20 e2]]))
      with (@Ok R (Rmin e1 e2)) in Hm.
    inversion Hm; subst m.
    rewrite Hrun. simpl.
    assert (Hvs : segment_vertices taxicab_inv config (pt 0 0 e1) (Rmin e1 e2)
                    {| points := [pt 0 0 e1; pt 0 20 e2] |}
                  = spec_cross_section taxicab_inv config (pt 0 0 e1)
                      (Rmin e1 e2) (pt 0 0 e1, pt 0 20 e2)).
    { rewrite segment_vertices_spec, Hkeep.
      unfold Py.pairwise. cbn [points combine tl flat_map]. apply app_nil_r. }
    rewrite Hvs. reflexivity.
Qed.

(** *** The elevation datum *)

Lemma elevated_heights_vertices (n : nat) :
  forall (vertices : list vertex) (h : R),
    (length vertices <= n)%nat ->
    In h (elevated_heights vertices) ->
    exists v, In v vertices /\ vz v = h.
Proof.
  induction n as [|n IH]; intros vertices h Hlen Hin.
  - destruct vertices; [contradiction | simpl in Hlen; lia].
  - destruct vertices as [|v1 [|v2 [|v3 [|v4 rest]]]]; try contradiction.
    cbn [elevated_heights In] in Hin. destruct Hin as [E|Hin].
    + exists v2. split; [right; left; reflexivity | exact E].
    + destruct (IH rest h) as [v [Hv E]]; [simpl in Hlen; lia | exact Hin |].
      exists v. split; [|exact E]. do 4 right. exact Hv.
Qed.

(** When is [base_height] the least of the computed elevations of the points
    that received a cross-section, for a multiplier that is not negative. *)
Lemma least_computed_elevation config (m : R) (csp : list GPSPoint) :
  (forall p, In p csp -> m <= elevation p) ->
  0 <= elevation_multiplier config ->
  (is_least (base_height config) (map (computed_elevation config m) csp)
   <-> (elevation_multiplier config = 0 /\ csp <> [])
       \/ (0 < elevation_multiplier config
           /\ exists p, In p csp /\ elevation p = m)).
Proof.
  intros Hlow Hk. unfold is_least. split.
  - intros [Hin _]. apply in_map_iff in Hin. destruct Hin as [p [E Hp]].
    destruct (Rle_lt_or_eq_dec _ _ Hk) as [Hpos|Hzero].
    + right. split; [exact Hpos|]. exists p. split; [exact Hp|].
      now apply (computed_elevation_datum config m p Hpos).
    + left. split; [now symmetry|]. intros Hnil. rewrite Hnil in Hp.
      contradiction.
  - intros H.
    assert (Hge : forall h, In h (map (computed_elevation config m) csp) ->
                            base_height config <= h).
    { intros h Hh. apply in_map_iff in Hh. destruct Hh as [q [<- Hq]].
      apply computed_elevation_ge; [now apply Hlow | exact Hk]. }
    split; [|exact Hge].
    destruct H as [[Hzero Hne]|[Hpos [p [Hp E]]]].
    + destruct csp as [|p csp]; [congruence|]. left.
      now apply computed_elevation_flat.
    + apply in_map_iff. exists p. split; [|exact Hp].
      now apply (computed_elevation_datum config m p Hpos).
Qed.

(** C6, the sentence as the specification has it fails for a multiplier of 0:
    on the track [[(0,0,7); (0,20,5)]] the run emits one cross-section, at the
    first point, whose computed elevation is [base_height]; so the least
    computed elevation is [base_height] although the multiplier is not
    positive, and although the point of least elevation, the last one, has
    received no cross-section. *)
Lemma C6_zero_multiplier_reaches_base :
  let config := {| elevation_multiplier := 0; smoothing_interval := 10;
                   base_height := 1; path_width := 5 |} in
  let gps_track := track_of [[pt 0 0 7; pt 0 20 5]] in
  exists obj,
    run taxicab_inv config gps_track = Ok obj
    /\ GPSTrack_min_elevation gps_track = Ok 5
    /\ cross_section_points taxicab_inv config gps_track = [pt 0 0 7]
    /\ elevated_heights (_vertices obj) = [base_height config]
    /\ is_least (base_height config) (elevated_heights (_vertices obj))
    /\ ~ (0 < elevation_multiplier config
          /\ exists p, In p (cross_section_points taxicab_inv config gps_track)
                       /\ elevation p = 5).
Proof.
  intros config gps_track.
  assert (Hd : smoothing_interval config < 20) by (simpl; lra).
  destruct (run_two_points config 7 5 Hd) as (Hcsp & Hm & Hrun).
  assert (Hmin : Rmin 7 5 = 5).
  { unfold Rmin. destruct (Rle_dec 7 5); [lra | reflexivity]. }
  rewrite Hmin in Hm, Hrun.
  assert (Hm' : GPSTrack_min_elevation gps_track = Ok 5) by exact Hm.
  assert (Hh : elevated_heights
                 (spec_cross_section taxicab_inv config (pt 0 0 7) 5
                                     (pt 0 0 7, pt 0 20 5))
               = [base_height config]).
  { rewrite <- (app_nil_r (spec_cross_section _ _ _ _ _)).
    rewrite heights_cross_section. cbn [elevated_heights fst].
    rewrite computed_elevation_flat by reflexivity. reflexivity. }
  eexists. split; [exact Hrun|]. split; [exact Hm'|]. split; [exact Hcsp|].
  cbn [_vertices]. split; [exact Hh|]. split.
  - rewrite Hh. split; [left; reflexivity|].
    intros h [<-|[]]. apply Rle_refl.
  - intros [Hpos _]. simpl in Hpos. lra.
Qed.

(** C6, amended.  In a run that returns, with [m] the least elevation over all
    points of all segments of the track: every vertex has height 0 or the
    computed elevation [base_height + (elevation p - m) * elevation_multiplier]
    of a point [p] that received a cross-section; the computed elevations the
    emitted vertices carry are those of the points that received a
    cross-section, one for each in order, and each is the height of an
    emitted vertex; with a multiplier [>= 0] every computed elevation is at
    least [base_height]; with a multiplier [> 0] a computed elevation equals
    [base_height] exactly for the points of least elevation; and with a
    multiplier [>= 0] the least computed elevation of the emitted vertices is
    [base_height] exactly when the multiplier is 0 and some point received a
    cross-section, or the multiplier is positive and a point of least
    elevation received a cross-section. *)
Theorem C6_elevation_datum :
  forall geod_inv config (gps_track : GPSTrack) (obj : ObjFile),
    run geod_inv config gps_track = Ok obj ->
    exists m,
      GPSTrack_min_elevation gps_track = Ok m
      /\ (forall p, In p (all_points gps_track) -> m <= elevation p)
      /\ (exists p, In p (all_points gps_track) /\ elevation p = m)
      /\ (forall v, In v (_vertices obj) ->
            vz v = 0
            \/ exists p, In p (cross_section_points geod_inv config gps_track)
                         /\ vz v = computed_elevation config m p)
      /\ elevated_heights (_vertices obj)
         = map (computed_elevation config m)
               (cross_section_points geod_inv config gps_track)
      /\ (forall p, In p (cross_section_points geod_inv config gps_track) ->
            exists v, In v (_vertices obj)
                      /\ vz v = computed_elevation config m p)
      /\ (0 <= elevation_multiplier config ->
          forall p, In p (all_points gps_track) ->
                    base_height config <= computed_elevation config m p)
      /\ (0 < elevation_multiplier config ->
          forall p, In p (all_points gps_track) ->
                    (computed_elevation config m p = base_height config
                     <-> elevation p = m))
      /\ (0 < elevation_multiplier config ->
          ((exists p, In p (cross_section_points geod_inv config gps_track)
                      /\ computed_elevation config m p = base_height config)
           <-> (exists p, In p (cross_section_points geod_inv config gps_track)
                          /\ elevation p = m)))
      /\ (0 <= elevation_multiplier config ->
          (is_least (base_height config) (elevated_heights (_vertices obj))
           <-> (elevation_multiplier config = 0
                /\ cross_section_points geod_inv config gps_track <> [])
               \/ (0 < elevation_multiplier config
                   /\ exists p,
                        In p (cross_section_points geod_inv config gps_track)
                        /\ elevation p = m))).
Proof.
  intros geod_inv config gps_track obj Hrun.
  destruct (run_vertices _ _ _ Hrun) as (s0 & origin & m & _ & _ & Hm & Hvs).
  destruct (track_min_spec _ Hm) as [Hlow Hatt].
  pose proof (run_heights _ _ _ Hrun Hm) as Hheights.
  exists m. split; [exact Hm|]. split; [exact Hlow|]. split; [exact Hatt|].
  split; [|split; [|split; [|split; [|split; [|split]]]]].
  - intros v Hv. rewrite Hvs in Hv.
    apply in_flat_map in Hv. destruct Hv as [s [Hs Hv]].
    rewrite segment_vertices_spec in Hv.
    apply in_flat_map in Hv. destruct Hv as [pr [Hpr Hv]].
    apply cross_section_height in Hv. destruct Hv as [Hz|Hz]; [now left|].
    right. exists (fst pr). split; [|exact Hz].
    unfold cross_section_points. apply in_flat_map. exists s.
    split; [exact Hs|]. unfold from_points. now apply in_map.
  - exact Hheights.
  - intros p Hp.
    apply (elevated_heights_vertices (n := length (_vertices obj)));
      [apply Nat.le_refl|].
    rewrite Hheights. now apply in_map.
  - intros Hk p Hp. apply computed_elevation_ge; [now apply Hlow | exact Hk].
  - intros Hk p _. now apply computed_elevation_datum.
  - intros Hk. split; intros [p [Hp E]]; exists p; (split; [exact Hp|]);
      now apply (computed_elevation_datum config m p Hk).
  - intros Hk. rewrite Hheights. apply least_computed_elevation; [|exact Hk].
    intros p Hp. apply Hlow. eapply cross_section_points_incl, Hp.
Qed.

Lemma C6_elevation_datum_witness :
  exists m,
    GPSTrack_min_elevation example_track = Ok m
    /\ (forall p, In p (all_points example_track) -> m <= elevation p)
    /\ (exists p, In p (all_points example_track) /\ elevation p = m)
    /\ (forall v, In v (_vertices (example_obj default_config)) ->
          vz v = 0
          \/ exists p,
               In p (cross_section_points taxicab_inv default_config
                                          example_track)
               /\ vz v = computed_elevation default_config m p)
    /\ elevated_heights (_vertices (example_obj default_config))
       = map (computed_elevation default_config m)
             (cross_section_points taxicab_inv default_config example_track)
    /\ (forall p,
           In p (cross_section_points taxicab_inv default_config
                                      example_track) ->
           exists v, In v (_vertices (example_obj default_config))
                     /\ vz v = computed_elevation default_config m p)
    /\ (0 <= elevation_multiplier default_config ->
        forall p, In p (all_points example_track) ->
                  base_height default_config
                  <= computed_elevation default_config m p)
    /\ (0 < elevation_multiplier default_config ->
        forall p, In p (all_points example_track) ->
                  (computed_elevation default_config m p
                   = base_height default_config
                   <-> elevation p = m))
    /\ (0 < elevation_multiplier default_config ->
        ((exists p,
             In p (cross_section_points taxicab_inv default_config
                                        example_track)
             /\ computed_elevation default_config m p
                = base_height default_config)
         <-> (exists p,
                 In p (cross_section_points taxicab_inv default_config
                                            example_track)
                 /\ elevation p = m)))
    /\ (0 <= elevation_multiplier default_config ->
        (is_least (base_height default_config)
                  (elevated_heights (_vertices (example_obj default_config)))
         <-> (elevation_multiplier default_config = 0
              /\ cross_section_points taxicab_inv default_config example_track
                 <> [])
             \/ (0 < elevation_multiplier default_config
                 /\ exists p,
                      In p (cross_section_points taxicab_inv default_config
                                                 example_track)
                      /\ elevation p = m))).
Proof.
  apply (@C6_elevation_datum taxicab_inv default_config example_track
                             (example_obj default_config)).
  apply run_example. simpl. lra.
Defined.

(* ================================================================== *)
(** * Reading a FIT file whose altitude may lack its value *)

Lemma from_fit_messages_fold (messages : list FitMessage) :
  forall acc,
    fold_left (fun pts message =>
                 match fit_message_point message with
                 | Some point => pts ++ [point]
                 | None => pts
                 end) messages acc
    = acc ++ from_fit_messages messages.
Proof.
  unfold from_fit_messages.
  induction messages as [|msg messages IH]; intros acc; cbn [fold_left].
  - now rewrite app_nil_r.
  - rewrite IH, (IH (match fit_message_point msg with
                      | Some point => [] ++ [point]
                      | None => []
                      end)).
    destruct (fit_message_point msg); simpl;
      [now rewrite <- app_assoc | reflexivity].
Qed.

Lemma fit_message_point_numeric (record : FitRecord) :
  fit_message_point (as_message record)
  = option_map as_fit_point (fit_point record).
Proof.
  unfold fit_message_point, fit_point, as_message. simpl.
  destruct (position_lat record); [|reflexivity].
  destruct (position_long record); [|reflexivity].
  destruct (enhanced_altitude record) as [elev|]; [|reflexivity]. simpl.
  destruct (units elev) as [u|]; [|reflexivity].
  destruct (String.eqb u "m"); reflexivity.
Qed.

(** On records whose altitude carries a number the two readings agree:
    [from_fit] keeps the same points, with the elevations present. *)
Lemma from_fit_messages_numeric (records : list FitRecord) :
  from_fit_messages (map as_message records)
  = map as_fit_point (flat_map fit_points records).
Proof.
  induction records as [|r records IH].
  - reflexivity.
  - unfold from_fit_messages in *. cbn [map fold_left flat_map].
    rewrite from_fit_messages_fold. unfold from_fit_messages.
    rewrite IH, map_app. f_equal.
    rewrite fit_message_point_numeric. unfold fit_points.
    destruct (fit_point r); reflexivity.
Qed.

(** A record with both positions and an altitude in metres is kept whatever
    its value: with the value [None] the point has the elevation [None]. *)
Lemma from_fit_keeps_missing_value (lat long : Z) (v : option R) :
  from_fit_messages
    [ {| message_lat := Some lat; message_long := Some long;
         message_altitude := Some {| dict_units := Some "m"%string;
                                     dict_value := v |} |} ]
  = [ {| fit_latitude := semicircles_to_degrees lat;
         fit_longitude := semicircles_to_degrees long;
         fit_elevation := v |} ].
Proof. reflexivity. Qed.

Lemma numeric_fit_points (fit_pts : list FitPoint) :
  Forall (fun p => fit_elevation p <> None) fit_pts ->
  exists pts, fit_pts = map as_fit_point pts.
Proof.
  induction 1 as [|p fit_pts Hp _ [pts IH]].
  - exists []. reflexivity.
  - destruct p as [lat long [e|]]; [|now elim Hp].
    exists ({| latitude := lat; longitude := long; elevation := e |} :: pts).
    rewrite IH. reflexivity.
Qed.

Lemma single_segment_never_fails geod_inv config (pts : list GPSPoint) :
  main_file geod_inv config {| segments := [ {| points := pts |} ] |}
  = Skipped
  \/ exists obj,
       main_file geod_inv config {| segments := [ {| points := pts |} ] |}
       = Written obj.
Proof.
  unfold main_file.
  destruct (Z.eqb_spec
              (GPSTrack_len {| segments := [ {| points := pts |} ] |}) 0)
    as [E|E]; [now left | right].
  assert (Hpre : no_empty_segment {| segments := [ {| points := pts |} ] |}).
  { split; simpl; [discriminate|].
    constructor; [|constructor]. simpl. intros Hnil. apply E.
    unfold GPSTrack_len, GPSTrackSegment_len, Py.len. simpl. now rewrite Hnil. }
  destruct (run_ok geod_inv (GPSTrackToOBJ config) Hpre)
    as (s0 & o & m & _ & _ & _ & Hrun).
  rewrite Hrun. eexists. reflexivity.
Qed.

(** X22.  [from_fit] stores the value of the altitude untested.  When no
    point it keeps has the elevation [None], the points of the one segment of
    the track it returns are points [pts] with a number for their elevation,
    and converting that track does not fail: the caller either skips it (no
    point kept) or the run returns and the mesh is written.  A track with a
    point of elevation [None] is outside this statement. *)
Theorem main_never_fails_on_numeric_fit :
  forall geod_inv config (messages : list FitMessage),
    Forall (fun p => fit_elevation p <> None) (from_fit_messages messages) ->
    exists pts,
      from_fit_messages messages = map as_fit_point pts
      /\ (main_file geod_inv config {| segments := [ {| points := pts |} ] |}
          = Skipped
          \/ exists obj,
               main_file geod_inv config
                         {| segments := [ {| points := pts |} ] |}
               = Written obj).
Proof.
  intros geod_inv config messages Hnum.
  destruct (numeric_fit_points Hnum) as [pts Hpts].
  exists pts. split; [exact Hpts | apply single_segment_never_fails].
Qed.

Lemma main_never_fails_on_numeric_fit_witness :
  Forall (fun p => fit_elevation p <> None)
         (from_fit_messages
            [ {| message_lat := Some 1073741824%Z;
                 message_long := Some (-2147483648)%Z;
                 message_altitude := Some {| dict_units := Some "m"%string;
                                             dict_value := Some 12 |} |};
              {| message_lat := None;
                 message_long := Some 0%Z;
                 message_altitude := Some {| dict_units := Some "m"%string;
                                             dict_value := None |} |} ])
  /\ exists pts,
       from_fit_messages
         [ {| message_lat := Some 1073741824%Z;
              message_long := Some (-2147483648)%Z;
              message_altitude := Some {| dict_units := Some "m"%string;
                                          dict_value := Some 12 |} |};
           {| message_lat := None;
              message_long := Some 0%Z;
              message_altitude := Some {| dict_units := Some "m"%string;
                                          dict_value := None |} |} ]
       = map as_fit_point pts
       /\ (main_file taxicab_inv None
                     {| segments := [ {| points := pts |} ] |}
           = Skipped
           \/ exists obj,
                main_file taxicab_inv None
                          {| segments := [ {| points := pts |} ] |}
                = Written obj).
Proof.
  assert (Hnum : Forall (fun p => fit_elevation p <> None)
                   (from_fit_messages
                      [ {| message_lat := Some 1073741824%Z;
                           message_long := Some (-2147483648)%Z;
                           message_altitude :=
                             Some {| dict_units := Some "m"%string;
                                     dict_value := Some 12 |} |};
                        {| message_lat := None;
                           message_long := Some 0%Z;
                           message_altitude :=
                             Some {| dict_units := Some "m"%string;
                                     dict_value := None |} |} ])).
  { constructor; [simpl; discriminate | constructor]. }
  split; [exact Hnum|].
  exact (@main_never_fails_on_numeric_fit taxicab_inv None _ Hnum).
Defined.
